(** * scw init: the interactive configuration flow

    A shallow embedding of [internal/namespaces/init/init.go].

    The command talks to a terminal, to the account service and to the
    configuration file, and its two-factor loop has no iteration bound, so
    every function of the file is an interaction tree over the calls it
    makes to those collaborators.  A run feeds the tree the replies of an
    environment and records each call with its reply. *)

From Stdlib Require Import String Ascii List Bool ZArith Lia.
From ITree Require Import ITree.
Import ListNotations.
Import ITreeNotations.

Local Open Scope string_scope.
Local Open Scope list_scope.
Local Open Scope itree_scope.

Set Implicit Arguments.

(** ** Errors and results *)

(** Go's [error] values met in the file: [fmt.Errorf] messages (also the
    opaque errors handed back by collaborators) and [core.CliError]. *)
Inductive error : Type :=
| Errorf (msg : string)
| CliError (Err : error) (Details : string).

(** A Go pair [(T, error)]: the value, or the error. *)
Definition result (T : Type) : Type := (T + error)%type.

(** What the value component holds next to a non-nil error: the zero value
    of its type. *)
Definition valueOr {T : Type} (zero : T) (r : result T) : T :=
  match r with
  | inl v => v
  | inr _ => zero
  end.

(** ** Types of the packages the file imports *)

Module scw.

Definition Zone : Type := string.
Definition Region : Type := string.

(** Modelled from the spec: [scw.Profile] and [scw.Config] are declared in
    the SDK; the fields are those init.go assigns, and a config owns "zero
    or more named profiles plus a global send-usage flag", one of them
    active. *)
Record Profile : Type := {
  AccessKey : option string;
  SecretKey : option string;
  DefaultOrganizationID : option string;
  DefaultRegion : option string;
  DefaultZone : option string
}.

Record Config : Type := {
  InlineProfile : Profile;
  ActiveProfile : option string;
  Profiles : list (string * Profile);
  SendUsage : bool
}.

Definition emptyProfile : Profile :=
  {| AccessKey := None; SecretKey := None; DefaultOrganizationID := None;
     DefaultRegion := None; DefaultZone := None |}.

(** [&scw.Config{}] *)
Definition emptyConfig : Config :=
  {| InlineProfile := emptyProfile; ActiveProfile := None;
     Profiles := []; SendUsage := false |}.

(** Modelled from the spec: the [*Profile] of the SDK's
    [GetActiveProfile] points into the config, init.go assigns through it
    and saves the config; the pointer names the profile it aliases. *)
Variant ProfilePtr : Type :=
| Inline
| Named (name : string).

(** Modelled from the spec: the named profiles of the SDK's config, read
    and updated by name. *)
Fixpoint lookup (name : string) (ps : list (string * Profile)) : option Profile :=
  match ps with
  | [] => None
  | (n, p) :: rest => if n =? name then Some p else lookup name rest
  end.

Fixpoint update (name : string) (f : Profile -> Profile)
         (ps : list (string * Profile)) : list (string * Profile) :=
  match ps with
  | [] => []
  | (n, p) :: rest =>
      if n =? name then (n, f p) :: rest else (n, p) :: update name f rest
  end.

(** Modelled from the spec: [Config.GetActiveProfile] belongs to the SDK.
    It answers the active profile of the record and can fail (init.go
    checks its error); here it fails when the record names an active
    profile it does not own. *)
Definition GetActiveProfile (c : Config) : result ProfilePtr :=
  match ActiveProfile c with
  | None => inl Inline
  | Some name =>
      match lookup name (Profiles c) with
      | Some _ => inl (Named name)
      | None => inr (Errorf ("given profile " ++ name ++ " does not exist"))
      end
  end.

(** [*p] *)
Definition deref (c : Config) (p : ProfilePtr) : Profile :=
  match p with
  | Inline => InlineProfile c
  | Named name =>
      match lookup name (Profiles c) with
      | Some pr => pr
      | None => emptyProfile
      end
  end.

(** An assignment through the pointer, seen in the config it points into. *)
Definition assign (p : ProfilePtr) (f : Profile -> Profile) (c : Config) : Config :=
  match p with
  | Inline =>
      {| InlineProfile := f (InlineProfile c); ActiveProfile := ActiveProfile c;
         Profiles := Profiles c; SendUsage := SendUsage c |}
  | Named name =>
      {| InlineProfile := InlineProfile c; ActiveProfile := ActiveProfile c;
         Profiles := update name f (Profiles c); SendUsage := SendUsage c |}
  end.

Definition setSendUsage (b : bool) (c : Config) : Config :=
  {| InlineProfile := InlineProfile c; ActiveProfile := ActiveProfile c;
     Profiles := Profiles c; SendUsage := b |}.

Definition setSecretKey (v : string) (p : Profile) : Profile :=
  {| AccessKey := AccessKey p; SecretKey := Some v;
     DefaultOrganizationID := DefaultOrganizationID p;
     DefaultRegion := DefaultRegion p; DefaultZone := DefaultZone p |}.

Definition setDefaultZone (v : string) (p : Profile) : Profile :=
  {| AccessKey := AccessKey p; SecretKey := SecretKey p;
     DefaultOrganizationID := DefaultOrganizationID p;
     DefaultRegion := DefaultRegion p; DefaultZone := Some v |}.

Definition setDefaultRegion (v : string) (p : Profile) : Profile :=
  {| AccessKey := AccessKey p; SecretKey := SecretKey p;
     DefaultOrganizationID := DefaultOrganizationID p;
     DefaultRegion := Some v; DefaultZone := DefaultZone p |}.

Definition setDefaultOrganizationID (v : string) (p : Profile) : Profile :=
  {| AccessKey := AccessKey p; SecretKey := SecretKey p;
     DefaultOrganizationID := Some v;
     DefaultRegion := DefaultRegion p; DefaultZone := DefaultZone p |}.

Definition setAccessKey (v : string) (p : Profile) : Profile :=
  {| AccessKey := Some v; SecretKey := SecretKey p;
     DefaultOrganizationID := DefaultOrganizationID p;
     DefaultRegion := DefaultRegion p; DefaultZone := DefaultZone p |}.

End scw.

Module account.

(** [account.LoginRequest], with the fields init.go fills. *)
Record LoginRequest : Type := {
  Email : string;
  Password : string;
  Description : string;
  TwoFactorToken : string
}.

(** [account.Token], with the field init.go reads. *)
Record Token : Type := { SecretKey : string }.

(** [loginReq.TwoFactorToken = code] *)
Definition setTwoFactorToken (code : string) (r : LoginRequest) : LoginRequest :=
  {| Email := Email r; Password := Password r;
     Description := Description r; TwoFactorToken := code |}.

End account.

(** [interactive.PromptBoolConfig] *)
Record PromptBoolConfig : Type := {
  BoolPrompt : string;
  BoolDefaultValue : bool
}.

(** [interactive.PromptStringConfig] *)
Record PromptStringConfig : Type := {
  Prompt : string;
  DefaultValueDoc : string;
  DefaultValue : string;
  ValidateFunc : string -> option error
}.

(** Which word of the secret-key prompt is printed in blue. *)
Variant Highlight : Type :=
| NoHighlight
| HighlightEmail
| HighlightSecretKey.

(** [interactive.ReadlineConfig] *)
Record ReadlineConfig : Type := {
  ReadlinePromptFunc : string -> Highlight;
  ReadlineValidateFunc : string -> option error
}.

(** ** The SDK's pure helpers

    [validation.IsEmail], [validation.IsUUID], [validation.IsZone],
    [scw.ParseZone], [Zone.Region] and [interactive.ValidateOrganizationID]
    are not part of init.go: the flow is stated over any implementation of
    them. *)
Class SDK : Type := {
  IsEmail : string -> bool;
  IsUUID : string -> bool;
  IsZone : string -> bool;
  ParseZone : string -> result scw.Zone;
  ZoneRegion : scw.Zone -> result scw.Region;
  ValidateOrganizationID : string -> option error
}.

(** Modelled from the spec: [validation.IsSecretKey] belongs to the SDK.
    The spec knows one "secret-key/UUID shape": a string has the secret-key
    shape exactly when it has the UUID shape. *)
Definition IsSecretKey `{SDK} (s : string) : bool := IsUUID s.

(** ** Arguments of the command *)

Record InitArgs : Type := {
  SecretKey : string;
  Region : scw.Region;
  Zone : scw.Zone;
  OrganizationID : string;
  SendUsage : option bool
}.

Definition setSecretKey (v : string) (a : InitArgs) : InitArgs :=
  {| SecretKey := v; Region := Region a; Zone := Zone a;
     OrganizationID := OrganizationID a; SendUsage := SendUsage a |}.

Definition setRegion (v : scw.Region) (a : InitArgs) : InitArgs :=
  {| SecretKey := SecretKey a; Region := v; Zone := Zone a;
     OrganizationID := OrganizationID a; SendUsage := SendUsage a |}.

Definition setZone (v : scw.Zone) (a : InitArgs) : InitArgs :=
  {| SecretKey := SecretKey a; Region := Region a; Zone := v;
     OrganizationID := OrganizationID a; SendUsage := SendUsage a |}.

Definition setOrganizationID (v : string) (a : InitArgs) : InitArgs :=
  {| SecretKey := SecretKey a; Region := Region a; Zone := Zone a;
     OrganizationID := v; SendUsage := SendUsage a |}.

Definition setSendUsage (v : option bool) (a : InitArgs) : InitArgs :=
  {| SecretKey := SecretKey a; Region := Region a; Zone := Zone a;
     OrganizationID := OrganizationID a; SendUsage := v |}.

(** ** Calls to the collaborators *)

(** The texts the flow prints; styling and layout are left out. *)
Variant Message : Type :=
| Logo
| Welcome
| CurrentConfig (path : string) (config : scw.Config)
| CreatingNewConfig (path : string)
| BlankLine
| UsageNotice
| ConfigSaved (path : string) (config : scw.Config).

Variant initE : Type -> Type :=
(* terminal, interactive *)
| GetWidth : initE Z
| Printf (m : Message) : initE unit
| PromptBoolWithConfig (config : PromptBoolConfig) : initE (result bool)
| PromptStringWithConfig (config : PromptStringConfig) : initE (result string)
| PromptString (prompt : string) : initE (result string)
| PromptPassword (prompt : string) : initE (result string)
| Readline (config : ReadlineConfig) : initE (result string)
(* os, logger *)
| Hostname : initE (result string)
| Getenv (key : string) : initE string
| Warningf (err : error) : initE unit
(* account *)
| Login (req : account.LoginRequest) : initE (result (account.Token * bool))
| GetOrganizationsIds (secretKey : string) : initE (result (list string))
| GetAccessKey (secretKey : string) : initE (result string)
(* scw config *)
| GetConfigPath : initE string
| LoadConfig : initE (result scw.Config)
| Save (config : scw.Config) : initE (option error).

Definition call {X : Type} (e : initE X) : itree initE X := ITree.trigger e.

(** ** init.go *)

Section Init.

Context {sdk : SDK}.

(** The three outcomes of the [switch] on the line read by
    [promptSecretKey] (lines 264-298); the [PromptFunc] of the same
    function tests the line in the same order. *)
Variant Classified : Type :=
| ClassEmail
| ClassUUID
| ClassInvalid.

Definition classify (value : string) : Classified :=
  if IsEmail value then ClassEmail
  else if IsUUID value then ClassUUID
  else ClassInvalid.

(** [PromptFunc] of the secret-key prompt (lines 243-252). *)
Definition secretKeyPromptFunc (value : string) : Highlight :=
  if IsEmail value then HighlightEmail
  else if IsUUID value then HighlightSecretKey
  else NoHighlight.

(** [ValidateFunc] of the secret-key prompt (lines 253-258). *)
Definition secretKeyValidateFunc (s : string) : option error :=
  if IsEmail s || IsSecretKey s then None
  else Some (Errorf "invalid email or secret-key").

Definition secretKeyReadline : ReadlineConfig :=
  {| ReadlinePromptFunc := secretKeyPromptFunc;
     ReadlineValidateFunc := secretKeyValidateFunc |}.

(** One turn of the [for] loop of lines 279-291: [inl] goes round again
    with the request that now carries the code, [inr] leaves the function. *)
Definition loginTurn (loginReq : account.LoginRequest)
  : itree initE (account.LoginRequest + result string) :=
  r <- call (Login loginReq) ;;
  match r with
  | inr err => Ret (inr (inr err))
  | inl (t, twoFactorRequired) =>
      if negb twoFactorRequired then Ret (inr (inl (account.SecretKey t)))
      else
        c <- call (PromptString "Enter your 2FA code") ;;
        match c with
        | inr err => Ret (inr (inr err))
        | inl code => Ret (inl (account.setTwoFactorToken code loginReq))
        end
  end.

(** Lines 241-299.  [terminal.Style] only colours a text: the prompts
    carry the plain text. *)
Definition promptSecretKey : itree initE (result string) :=
  l <- call (Readline secretKeyReadline) ;;
  match l with
  | inr err => Ret (inr err)
  | inl UUIDOrEmail =>
      match classify UUIDOrEmail with
      | ClassEmail =>
          let email := UUIDOrEmail in
          p <- call (PromptPassword "Enter your password") ;;
          match p with
          | inr err => Ret (inr err)
          | inl password =>
              h <- call Hostname ;;
              let hostname := valueOr "" h in
              user <- call (Getenv "USER") ;;
              let loginReq :=
                {| account.Email := email;
                   account.Password := password;
                   account.Description := "scw-cli " ++ user ++ "@" ++ hostname;
                   account.TwoFactorToken := "" |} in
              ITree.iter loginTurn loginReq
          end
      | ClassUUID => Ret (inl UUIDOrEmail)
      | ClassInvalid =>
          Ret (inr (Errorf ("invalid email or secret-key: '" ++ UUIDOrEmail ++ "'")))
      end
  end.

(** The config that [promptOrganizationID] hands to the prompt
    (lines 317-324). *)
Definition organizationIDPrompt (IDs : list string) : PromptStringConfig :=
  if (0 <? length IDs)%nat then
    {| Prompt := "Enter your Organization ID"; DefaultValueDoc := nth 0 IDs "";
       DefaultValue := nth 0 IDs ""; ValidateFunc := ValidateOrganizationID |}
  else
    {| Prompt := "Enter your Organization ID"; DefaultValueDoc := "";
       DefaultValue := ""; ValidateFunc := ValidateOrganizationID |}.

(** Lines 316-330. *)
Definition promptOrganizationID (IDs : list string) : itree initE (result string) :=
  r <- call (PromptStringWithConfig (organizationIDPrompt IDs)) ;;
  match r with
  | inr err => Ret (inr err)
  | inl ID => Ret (inl ID)
  end.

(** Lines 304-314. *)
Definition getOrganizationID (secretKey : string) : itree initE (result string) :=
  r <- call (GetOrganizationsIds secretKey) ;;
  match r with
  | inr err =>
      call (Warningf err) ;;
      promptOrganizationID (valueOr [] r)
  | inl IDs =>
      if negb (length IDs =? 1)%nat then promptOrganizationID IDs
      else Ret (inl (nth 0 IDs ""))
  end.

(** *** PreValidateFunc

    The closure runs its blocks in order and leaves at the first error; the
    arguments it has filled in so far stay in [args]. *)

Definition step : Type := InitArgs -> itree initE (InitArgs * option error).

Definition andThen (first next : step) : step :=
  fun args =>
    r <- first args ;;
    match r with
    | (args', None) => next args'
    | (args', Some err) => Ret (args', Some err)
    end.

Infix "+>" := andThen (at level 50, left associativity).

(** Lines 97-102. *)
Definition showBanner : step :=
  fun args =>
    w <- call GetWidth ;;
    (if (80 <=? w)%Z then call (Printf Logo) else call (Printf Welcome)) ;;
    Ret (args, None).

Definition overridePrompt : PromptBoolConfig :=
  {| BoolPrompt := "Do you want to override current config?";
     BoolDefaultValue := true |}.

(** Lines 104-128. *)
Definition confirmOverride : step :=
  fun args =>
    c <- call LoadConfig ;;
    match c with
    | inr _ => Ret (args, None)
    | inl config =>
        path <- call GetConfigPath ;;
        call (Printf (CurrentConfig path config)) ;;
        o <- call (PromptBoolWithConfig overridePrompt) ;;
        match o with
        | inr err => Ret (args, Some err)
        | inl overrideConfig =>
            if negb overrideConfig
            then Ret (args, Some (Errorf "initialization cancelled"))
            else Ret (args, None)
        end
    end.

(** Lines 131-136. *)
Definition askSecretKey : step :=
  fun args =>
    if SecretKey args =? "" then
      r <- promptSecretKey ;;
      match r with
      | inr err => Ret (setSecretKey "" args, Some err)
      | inl secretKey => Ret (setSecretKey secretKey args, None)
      end
    else Ret (args, None).

(** [ValidateFunc] of the zone prompt (lines 142-148), without its debug
    log line. *)
Definition zoneValidateFunc (s : string) : option error :=
  if negb (IsZone s) then Some (Errorf "invalid zone") else None.

Definition zonePrompt : PromptStringConfig :=
  {| Prompt := "Select a zone"; DefaultValueDoc := "fr-par-1";
     DefaultValue := "fr-par-1"; ValidateFunc := zoneValidateFunc |}.

(** Lines 137-154.  The error of the prompt is assigned to [err] and [err]
    is assigned again by [scw.ParseZone] before anything reads it. *)
Definition askZone : step :=
  fun args =>
    if Zone args =? "" then
      r <- call (PromptStringWithConfig zonePrompt) ;;
      let zone := valueOr "" r in
      match ParseZone zone with
      | inr err => Ret (setZone "" args, Some err)
      | inl z => Ret (setZone z args, None)
      end
    else Ret (args, None).

(** Lines 156-162. *)
Definition deduceRegion : step :=
  fun args =>
    if Region args =? "" then
      match ZoneRegion (Zone args) with
      | inr err => Ret (setRegion "" args, Some err)
      | inl region => Ret (setRegion region args, None)
      end
    else Ret (args, None).

(** Lines 164-171. *)
Definition askOrganizationID : step :=
  fun args =>
    if OrganizationID args =? "" then
      r <- getOrganizationID (SecretKey args) ;;
      match r with
      | inr err => Ret (setOrganizationID "" args, Some err)
      | inl ID => Ret (setOrganizationID ID args, None)
      end
    else Ret (args, None).

Definition sendUsagePrompt : PromptBoolConfig :=
  {| BoolPrompt := "Do you want to send usage statistics and diagnostics?";
     BoolDefaultValue := true |}.

(** Lines 173-188. *)
Definition askSendUsage : step :=
  fun args =>
    match SendUsage args with
    | None =>
        call (Printf BlankLine) ;;
        call (Printf UsageNotice) ;;
        r <- call (PromptBoolWithConfig sendUsagePrompt) ;;
        let sendUsage := valueOr false r in
        let args' := setSendUsage (Some sendUsage) args in
        match r with
        | inr err => Ret (args', Some err)
        | inl _ => Ret (args', None)
        end
    | Some _ => Ret (args, None)
    end.

(** The blocks in front of the region block, and the whole closure. *)
Definition resolveZone : step :=
  showBanner +> confirmOverride +> askSecretKey +> askZone.

Definition PreValidateFunc : step :=
  resolveZone +> deduceRegion +> askOrganizationID +> askSendUsage.

(** *** Run *)

(** The first component of what [Run] returns. *)
Variant RunValue : Type :=
| Nil
| EmptyText
| SuccessResult.

(** Lines 212-215, through the pointer [profile]. *)
Definition fillProfile (args : InitArgs) (p : scw.Profile) : scw.Profile :=
  scw.setDefaultOrganizationID (OrganizationID args)
    (scw.setDefaultRegion (Region args)
      (scw.setDefaultZone (Zone args)
        (scw.setSecretKey (SecretKey args) p))).

Definition accessKeyDetails : string :=
  "Failed to retrieve Access Key for the given Secret Key.".

(** Lines 192-237. *)
Definition Run (args : InitArgs) : itree initE (RunValue * option error) :=
  c <- call LoadConfig ;;
  config <- match c with
            | inl config => Ret config
            | inr _ =>
                path <- call GetConfigPath ;;
                call (Printf (CreatingNewConfig path)) ;;
                Ret scw.emptyConfig
            end ;;
  let config :=
    match SendUsage args with
    | Some sendUsage => scw.setSendUsage sendUsage config
    | None => config
    end in
  match scw.GetActiveProfile config with
  | inr err => Ret (Nil, Some err)
  | inl profile =>
      let config := scw.assign profile (fillProfile args) config in
      s <- call (Save config) ;;
      match s with
      | Some err => Ret (Nil, Some err)
      | None =>
          a <- call (GetAccessKey (SecretKey args)) ;;
          match a with
          | inr err =>
              path <- call GetConfigPath ;;
              call (Printf (ConfigSaved path config)) ;;
              Ret (EmptyText, Some (CliError err accessKeyDetails))
          | inl accessKey =>
              let config := scw.assign profile (scw.setAccessKey accessKey) config in
              s <- call (Save config) ;;
              match s with
              | Some err => Ret (Nil, Some err)
              | None => Ret (SuccessResult, None)
              end
          end
      end
  end.

End Init.

Infix "+>" := andThen (at level 50, left associativity).

(** ** Running a tree

    [reply] is the environment: it answers a call in a state of the world
    and gives the next state.  [run] walks the tree for at most [fuel]
    nodes and returns the result, the last state and every call made, in
    order, each with its answer. *)

Variant Obs : Type :=
| Ob {X : Type} (e : initE X) (x : X).

Definition trace : Type := list Obs.

Section Running.

Context {W : Type} (reply : forall X : Type, initE X -> W -> X * W).

Fixpoint run {R : Type} (fuel : nat) (t : itree initE R) (w : W)
  : option (R * W * trace) :=
  match fuel with
  | O => None
  | S fuel' =>
      match observe t with
      | RetF r => Some (r, w, [])
      | TauF t' => run fuel' t' w
      | VisF e k =>
          let (x, w') := reply e w in
          match run fuel' (k x) w' with
          | Some (r, w'', tr) => Some (r, w'', Ob e x :: tr)
          | None => None
          end
      end
  end.

(** The tree returns: some amount of fuel is enough. *)
Definition returns {R : Type} (t : itree initE R) (w : W) (out : R * W * trace) : Prop :=
  exists fuel, run fuel t w = Some out.

End Running.

(** ** A scripted environment *)

(** Modelled from the spec: the collaborators of section 6 (Terminal UI,
    Account Service, Config Store) are not part of init.go.  Each is a
    script: the lines typed at the terminal, the yes/no answers, the replies
    of the login endpoint in the order of the calls, the organizations and
    the access key known for a secret key, the config file and the outcome
    of each write. *)
Record World : Type := {
  width : Z;
  configPath : string;
  hostname : result string;
  env : string -> string;
  lines : list (result string);
  confirms : list (result bool);
  logins : list (result (account.Token * bool));
  organizations : string -> result (list string);
  accessKeys : string -> result string;
  disk : option scw.Config;
  saves : list (option error)
}.

Definition setLines (v : list (result string)) (w : World) : World :=
  {| width := width w; configPath := configPath w; hostname := hostname w;
     env := env w; lines := v; confirms := confirms w; logins := logins w;
     organizations := organizations w; accessKeys := accessKeys w;
     disk := disk w; saves := saves w |}.

Definition setConfirms (v : list (result bool)) (w : World) : World :=
  {| width := width w; configPath := configPath w; hostname := hostname w;
     env := env w; lines := lines w; confirms := v; logins := logins w;
     organizations := organizations w; accessKeys := accessKeys w;
     disk := disk w; saves := saves w |}.

Definition setLogins (v : list (result (account.Token * bool))) (w : World) : World :=
  {| width := width w; configPath := configPath w; hostname := hostname w;
     env := env w; lines := lines w; confirms := confirms w; logins := v;
     organizations := organizations w; accessKeys := accessKeys w;
     disk := disk w; saves := saves w |}.

Definition setDisk (d : option scw.Config) (v : list (option error)) (w : World) : World :=
  {| width := width w; configPath := configPath w; hostname := hostname w;
     env := env w; lines := lines w; confirms := confirms w; logins := logins w;
     organizations := organizations w; accessKeys := accessKeys w;
     disk := d; saves := v |}.

(** Modelled from the spec: the "cancellation/EOF error" of a prompt whose
    input is closed. *)
Definition EOF : error := Errorf "EOF".

(** Modelled from the spec: the prompts of the interactive package are
    "blocking calls returning either a value or a cancellation/EOF error";
    a line prompt has a "validator + optional default" and asks again until
    the line passes.  The answer is the first typed line that passes
    [validate], an empty line standing for [default]. *)
Fixpoint readLine (default : string) (validate : string -> option error)
         (typed : list (result string)) : result string * list (result string) :=
  match typed with
  | [] => (inr EOF, [])
  | inr err :: rest => (inr err, rest)
  | inl s :: rest =>
      let v := if s =? "" then default else s in
      match validate v with
      | None => (inl v, rest)
      | Some _ => readLine default validate rest
      end
  end.

Definition noValidation (s : string) : option error := None.

(** Modelled from the spec: a line prompt in a world; the lines it reads
    are gone from the script. *)
Definition readString (default : string) (validate : string -> option error)
           (w : World) : result string * World :=
  let (r, rest) := readLine default validate (lines w) in (r, setLines rest w).

(** Modelled from the spec: the reply of each collaborator, read off the
    script.  A write that succeeds replaces the config file. *)
Definition scripted : forall X : Type, initE X -> World -> X * World :=
  fun X e =>
    match e in initE X return World -> X * World with
    | GetWidth => fun w => (width w, w)
    | Printf _ => fun w => (tt, w)
    | PromptBoolWithConfig _ => fun w =>
        match confirms w with
        | [] => (inr EOF, w)
        | b :: rest => (b, setConfirms rest w)
        end
    | PromptStringWithConfig config =>
        readString (DefaultValue config) (ValidateFunc config)
    | PromptString _ => readString "" noValidation
    | PromptPassword _ => readString "" noValidation
    | Readline config => readString "" (ReadlineValidateFunc config)
    | Hostname => fun w => (hostname w, w)
    | Getenv key => fun w => (env w key, w)
    | Warningf _ => fun w => (tt, w)
    | Login _ => fun w =>
        match logins w with
        | [] => (inr (Errorf "no reply"), w)
        | r :: rest => (r, setLogins rest w)
        end
    | GetOrganizationsIds secretKey => fun w => (organizations w secretKey, w)
    | GetAccessKey secretKey => fun w => (accessKeys w secretKey, w)
    | GetConfigPath => fun w => (configPath w, w)
    | LoadConfig => fun w =>
        match disk w with
        | Some config => (inl config, w)
        | None => (inr (Errorf "config file not found"), w)
        end
    | Save config => fun w =>
        match saves w with
        | Some err :: rest => (Some err, setDisk (disk w) rest w)
        | None :: rest => (None, setDisk (Some config) rest w)
        | [] => (None, setDisk (Some config) [] w)
        end
    end.

(** The flow in the scripted environment. *)
Notation "t @ w ~> out" := (returns scripted t w out)
  (at level 70, w at next level, no associativity).

(** ** An SDK to run the flow with *)

(** Modelled from the spec: [validation.IsEmail] is named by its shape
    only; here an email is text, an at sign, text. *)
Fixpoint atSign (s : string) : bool :=
  match s with
  | EmptyString => false
  | String c rest => (Ascii.eqb c "@" && negb (rest =? "")) || atSign rest
  end.

(** Modelled from the spec: the email shape, at least one character in
    front of the at sign. *)
Definition emailShape (s : string) : bool :=
  match s with
  | EmptyString => false
  | String _ rest => atSign rest
  end.

(** Modelled from the spec: [validation.IsUUID] is named by its shape
    only; here a string has the UUID shape when it is, from its first
    character to its last, groups of 8, 4, 4, 4 and 12 hexadecimal digits
    with a dash between two groups. *)
Definition isHex (c : ascii) : bool :=
  let n := nat_of_ascii c in
  ((48 <=? n) && (n <=? 57) || (65 <=? n) && (n <=? 70)
   || (97 <=? n) && (n <=? 102))%nat.

(** [n] hexadecimal digits in front of [s]: what follows them. *)
Fixpoint hexDigits (n : nat) (s : string) : option string :=
  match n with
  | O => Some s
  | S n' =>
      match s with
      | String c rest => if isHex c then hexDigits n' rest else None
      | EmptyString => None
      end
  end.

(** [s] is the groups of [sizes], a dash between two groups, and nothing
    else. *)
Fixpoint hexGroups (sizes : list nat) (s : string) : bool :=
  match sizes with
  | [] => match s with EmptyString => true | String _ _ => false end
  | [n] => match hexDigits n s with Some EmptyString => true | _ => false end
  | n :: more =>
      match hexDigits n s with
      | Some (String c rest) => Ascii.eqb c "-" && hexGroups more rest
      | _ => false
      end
  end.

(** Modelled from the spec: the UUID shape, of the whole string. *)
Definition uuidShape (s : string) : bool := hexGroups [8; 4; 4; 4; 12]%nat s.

(** An at sign somewhere in the string. *)
Fixpoint hasAt (s : string) : bool :=
  match s with
  | EmptyString => false
  | String c rest => Ascii.eqb c "@" || hasAt rest
  end.

(** Modelled from the spec: a "syntactically valid zone" is two lowercase
    letters for the country, three for the city and a number from 1 to 9,
    with a dash between them, as in fr-par-1. *)
Definition isLower (c : ascii) : bool :=
  let n := nat_of_ascii c in ((97 <=? n) && (n <=? 122))%nat.

Definition isNumber (c : ascii) : bool :=
  let n := nat_of_ascii c in ((49 <=? n) && (n <=? 57))%nat.

(** [n] lowercase letters in front of [s]: what follows them. *)
Fixpoint letters (n : nat) (s : string) : option string :=
  match n with
  | O => Some s
  | S n' =>
      match s with
      | String c rest => if isLower c then letters n' rest else None
      | EmptyString => None
      end
  end.

Definition zoneShape (s : string) : bool :=
  match letters 2 s with
  | Some (String "-" city) =>
      match letters 3 city with
      | Some (String "-" (String n EmptyString)) => isNumber n
      | _ => false
      end
  | _ => false
  end.

(** Modelled from the spec: [scw.ParseZone] takes the strings of the zone
    shape; [Zone.Region] is the "fixed zone to region mapping", the name of
    the zone without its number, and a string that is no zone has no
    region: "every zone maps to exactly one region". *)
Definition parseZone (s : string) : result scw.Zone :=
  if zoneShape s then inl s else inr (Errorf "bad zone format").

Definition regionOf (z : scw.Zone) : result scw.Region :=
  if zoneShape z then inl (substring 0 (String.length z - 2) z)
  else inr (Errorf "unknown zone").

(** Modelled from the spec: an SDK made of the shapes above. *)
#[export] Instance shapes : SDK := {|
  IsEmail := emailShape;
  IsUUID := uuidShape;
  IsZone := zoneShape;
  ParseZone := parseZone;
  ZoneRegion := regionOf;
  ValidateOrganizationID := fun s =>
    if uuidShape s then None else Some (Errorf "invalid organization-id")
|}.

(** ** Reading a run *)

(** The request of the first login call (lines 271-276). *)
Definition firstLogin (w : World) (email password : string) : account.LoginRequest :=
  {| account.Email := email;
     account.Password := password;
     account.Description :=
       "scw-cli " ++ env w "USER" ++ "@" ++ valueOr "" (hostname w);
     account.TwoFactorToken := "" |}.

(** The calls to the account service in a trace, and the prompts for a
    two-factor code. *)
Definition isLogin (o : Obs) : bool :=
  match o with
  | Ob (Login _) _ => true
  | _ => false
  end.

Definition isAccountCall (o : Obs) : bool :=
  match o with
  | Ob (Login _) _ => true
  | Ob (GetOrganizationsIds _) _ => true
  | Ob (GetAccessKey _) _ => true
  | _ => false
  end.

Definition isCodePrompt (o : Obs) : bool :=
  match o with
  | Ob (PromptString _) _ => true
  | _ => false
  end.

Definition isSave (o : Obs) : bool :=
  match o with
  | Ob (Save _) _ => true
  | _ => false
  end.

Definition banner (w : World) : Message :=
  if (80 <=? width w)%Z then Logo else Welcome.

(** The calls of the closure up to its first prompt when there is no
    config file. *)
Definition openingCalls (w : World) : trace :=
  [Ob GetWidth (width w);
   Ob (Printf (banner w)) tt;
   Ob LoadConfig (inr (Errorf "config file not found"))].

(** The config [Run] works on once lines 197-205 are done. *)
Definition loadedConfig (args : InitArgs) (w : World) : scw.Config :=
  let config :=
    match disk w with
    | Some config => config
    | None => scw.emptyConfig
    end in
  match SendUsage args with
  | Some sendUsage => scw.setSendUsage sendUsage config
  | None => config
  end.

(** The calls of lines 197-201. *)
Definition loadCalls (w : World) : trace :=
  match disk w with
  | Some config => [Ob LoadConfig (inl config)]
  | None =>
      [Ob LoadConfig (inr (Errorf "config file not found"));
       Ob GetConfigPath (configPath w);
       Ob (Printf (CreatingNewConfig (configPath w))) tt]
  end.

(** ** Data of the example runs *)

Definition uuid : string := "11111111-2222-3333-4444-555555555555".
Definition organization1 : string := "aaaaaaaa-2222-3333-4444-555555555555".
Definition organization2 : string := "bbbbbbbb-2222-3333-4444-555555555555".

(** A world with a wide terminal, no config file, nothing typed and an
    account service that knows no organization and refuses access keys. *)
Definition quiet : World :=
  {| width := 120; configPath := "/home/u/.config/scw/config.yaml";
     hostname := inl "laptop"; env := fun _ => "u";
     lines := []; confirms := []; logins := [];
     organizations := fun _ => inl []; accessKeys := fun _ => inr (Errorf "denied");
     disk := None; saves := [] |}.

Definition setOrganizations (found : result (list string)) (w : World) : World :=
  {| width := width w; configPath := configPath w; hostname := hostname w;
     env := env w; lines := lines w; confirms := confirms w; logins := logins w;
     organizations := fun _ => found; accessKeys := accessKeys w;
     disk := disk w; saves := saves w |}.

Definition token1 : account.Token := {| account.SecretKey := "" |}.
Definition token2 : account.Token := {| account.SecretKey := uuid |}.

(** The user types an email, a password and a code; the service asks for
    the code once. *)
Definition twoFactorWorld : World :=
  setLogins [inl (token1, true); inl (token2, false)]
    (setLines [inl "u@example.com"; inl "hunter2"; inl "123456"] quiet).

(** The service asks for a code twice and then rejects the login. *)
Definition rejected : World :=
  setLogins [inl (token1, true); inl (token1, true); inr (Errorf "invalid code")]
    (setLines [inl "u@example.com"; inl "hunter2"; inl "123456"; inl "654321"] quiet).

(** The service asks for a code and the input is closed. *)
Definition noCode : World :=
  setLogins [inl (token1, true)]
    (setLines [inl "u@example.com"; inl "hunter2"; inr EOF] quiet).

(** The query for the organizations fails; the user types an ID. *)
Definition refused : World :=
  setOrganizations (inr (Errorf "unauthorized")) (setLines [inl organization2] quiet).

(** Two organizations; the user presses return. *)
Definition twoOrganizations : World :=
  setOrganizations (inl [organization1; organization2]) (setLines [inl ""] quiet).

(** A config file exists and the user answers no. *)
Definition existing : scw.Config :=
  {| scw.InlineProfile := scw.setSecretKey uuid scw.emptyProfile;
     scw.ActiveProfile := None; scw.Profiles := []; scw.SendUsage := true |}.

Definition configured : World :=
  setConfirms [inl false] (setDisk (Some existing) [] quiet).

Definition noArgs : InitArgs :=
  {| SecretKey := ""; Region := ""; Zone := ""; OrganizationID := "";
     SendUsage := None |}.

(** A secret key on the command line, with or without a zone. *)
Definition keyArgs (zone : scw.Zone) : InitArgs :=
  {| SecretKey := uuid; Region := ""; Zone := zone; OrganizationID := "";
     SendUsage := None |}.

(** The input of the terminal is closed. *)
Definition closed : World := setLines [inr EOF] quiet.

(** The calls of the closure in [quiet] before it asks for anything. *)
Definition opening : trace :=
  [Ob GetWidth 120%Z;
   Ob (Printf Logo) tt;
   Ob LoadConfig (inr (Errorf "config file not found"))].

(** Nothing on the command line: the user types a secret key and accepts
    the default zone; one organization; the user agrees to send usage. *)
Definition interactive : World :=
  setOrganizations (inl [organization1])
    (setConfirms [inl true] (setLines [inl uuid; inl ""] quiet)).

(** The service asks for a code twice and then issues a key. *)
Definition twoRounds : World :=
  setLogins [inl (token1, true); inl (token1, true); inl (token2, false)]
    (setLines [inl "u@example.com"; inl "hunter2"; inl "123456"; inl "654321"] quiet).

(** The machine has no host name. *)
Definition nameless : World :=
  {| width := 120; configPath := "/home/u/.config/scw/config.yaml";
     hostname := inr (Errorf "no hostname"); env := fun _ => "u";
     lines := [inl "u@example.com"; inl "hunter2"]; confirms := [];
     logins := [inl (token2, false)];
     organizations := fun _ => inl []; accessKeys := fun _ => inr (Errorf "denied");
     disk := None; saves := [] |}.

(** The calls of [promptSecretKey] in [twoFactorWorld]. *)
Definition twoFactorCalls : trace :=
  [Ob (Readline secretKeyReadline) (inl "u@example.com");
   Ob (PromptPassword "Enter your password") (inl "hunter2");
   Ob Hostname (inl "laptop");
   Ob (Getenv "USER") "u";
   Ob (Login (firstLogin quiet "u@example.com" "hunter2")) (inl (token1, true));
   Ob (PromptString "Enter your 2FA code") (inl "123456");
   Ob (Login (account.setTwoFactorToken "123456"
                (firstLogin quiet "u@example.com" "hunter2")))
      (inl (token2, false))].

(** The calls of the closure in [configured]. *)
Definition declinedCalls : trace :=
  [Ob GetWidth 120%Z;
   Ob (Printf Logo) tt;
   Ob LoadConfig (inl existing);
   Ob GetConfigPath "/home/u/.config/scw/config.yaml";
   Ob (Printf (CurrentConfig "/home/u/.config/scw/config.yaml" existing)) tt;
   Ob (PromptBoolWithConfig overridePrompt) (inl false)].

(** A config file that names an active profile it does not hold. *)
Definition dangling : scw.Config :=
  {| scw.InlineProfile := scw.emptyProfile; scw.ActiveProfile := Some "work";
     scw.Profiles := []; scw.SendUsage := false |}.

(** A config file with an access key from an earlier run. *)
Definition earlier : scw.Config :=
  {| scw.InlineProfile := scw.setAccessKey "SCWOLDOLDOLDOLDOLDOL" scw.emptyProfile;
     scw.ActiveProfile := None; scw.Profiles := []; scw.SendUsage := false |}.

(** A config file exists and the user answers yes. *)
Definition overriding : World :=
  setConfirms [inl true] (setDisk (Some existing) [] quiet).

(** A config file and nothing on the command line: the user agrees to
    override the file, types a secret key, accepts the default zone and
    agrees to send usage; one organization. *)
Definition overridingInteractive : World :=
  setOrganizations (inl [organization1])
    (setConfirms [inl true; inl true]
       (setLines [inl uuid; inl ""] (setDisk (Some existing) [] quiet))).

(** The account service knows one organization and grants an access key. *)
Definition granting : World :=
  {| width := 120; configPath := "/home/u/.config/scw/config.yaml";
     hostname := inl "laptop"; env := fun _ => "u";
     lines := []; confirms := []; logins := [];
     organizations := fun _ => inl [organization1];
     accessKeys := fun _ => inl "SCWXXXXXXXXXXXXXXXXX";
     disk := None; saves := [] |}.

Definition givenArgs : InitArgs :=
  {| SecretKey := uuid; Region := ""; Zone := "fr-par-1"; OrganizationID := "";
     SendUsage := Some true |}.

(** Arguments as [PreValidateFunc] leaves them, and the config that [Run]
    writes first for them when there was no file. *)
Definition resolved : InitArgs :=
  {| SecretKey := uuid; Region := "fr-par"; Zone := "fr-par-1";
     OrganizationID := organization1; SendUsage := Some true |}.

Definition withAccessKey : scw.Config :=
  {| scw.InlineProfile :=
       {| scw.AccessKey := Some "SCWXXXXXXXXXXXXXXXXX"; scw.SecretKey := Some uuid;
          scw.DefaultOrganizationID := Some organization1;
          scw.DefaultRegion := Some "fr-par"; scw.DefaultZone := Some "fr-par-1" |};
     scw.ActiveProfile := None; scw.Profiles := []; scw.SendUsage := true |}.

Definition firstSaved : scw.Config :=
  {| scw.InlineProfile :=
       {| scw.AccessKey := None; scw.SecretKey := Some uuid;
          scw.DefaultOrganizationID := Some organization1;
          scw.DefaultRegion := Some "fr-par"; scw.DefaultZone := Some "fr-par-1" |};
     scw.ActiveProfile := None; scw.Profiles := []; scw.SendUsage := true |}.

(** The first write fails; the second write fails. *)
Definition firstWriteFails : World := setDisk None [Some (Errorf "disk full")] granting.

Definition secondWriteFails : World :=
  setDisk None [None; Some (Errorf "disk full")] granting.

(** The file names a profile it does not hold; the file has an old access
    key and the service refuses a new one. *)
Definition danglingWorld : World := setDisk (Some dangling) [] granting.

Definition earlierWorld : World := setDisk (Some earlier) [] quiet.

(** The query for the organizations fails and the input is closed. *)
Definition refusedClosed : World :=
  setOrganizations (inr (Errorf "unauthorized")) closed.

(** The calls of [Run] on [resolved] in [granting]. *)
Definition successCalls : trace :=
  [Ob LoadConfig (inr (Errorf "config file not found"));
   Ob GetConfigPath "/home/u/.config/scw/config.yaml";
   Ob (Printf (CreatingNewConfig "/home/u/.config/scw/config.yaml")) tt;
   Ob (Save firstSaved) None;
   Ob (GetAccessKey uuid) (inl "SCWXXXXXXXXXXXXXXXXX");
   Ob (Save withAccessKey) None].

(** ** The two configs that Run writes *)

(** The config of the first write (lines 207-216) and of the second
    (lines 230-231), through the pointer [profile]. *)
Definition firstWrite (args : InitArgs) (w : World) (profile : scw.ProfilePtr)
  : scw.Config :=
  scw.assign profile (fillProfile args) (loadedConfig args w).

Definition secondWrite (args : InitArgs) (w : World) (profile : scw.ProfilePtr)
           (accessKey : string) : scw.Config :=
  scw.assign profile (scw.setAccessKey accessKey) (firstWrite args w profile).

(** ** The closure as a list of blocks *)

(** The blocks of [PreValidateFunc] in the order of the source, and a list
    of blocks run one after the other. *)
Definition blocks {sdk : SDK} : list step :=
  [showBanner; confirmOverride; askSecretKey; askZone; deduceRegion;
   askOrganizationID; askSendUsage].

Definition chain (first : step) (others : list step) : step :=
  fold_left andThen others first.

(** ** What a tree never does *)

(** In every environment, no run of [t] makes a call that [bad] marks. *)
Definition never (bad : Obs -> bool) {R : Type} (t : itree initE R) : Prop :=
  forall (W : Type) (reply : forall X : Type, initE X -> W -> X * W)
         (w : W) (out : R * W * trace),
    returns reply t w out -> existsb bad (snd out) = false.

Definition isPrompt (o : Obs) : bool :=
  match o with
  | Ob (PromptBoolWithConfig _) _ => true
  | Ob (PromptStringWithConfig _) _ => true
  | Ob (PromptString _) _ => true
  | Ob (PromptPassword _) _ => true
  | Ob (Readline _) _ => true
  | _ => false
  end.

Definition isAccessKeyCall (o : Obs) : bool :=
  match o with
  | Ob (GetAccessKey _) _ => true
  | _ => false
  end.


(** What [PreValidateFunc] leaves to [Run], and what [Run] leaves to
    [PreValidateFunc]. *)
Definition writesOrEnriches (o : Obs) : bool := isSave o || isAccessKeyCall o.


(** The calls of the login loop while the service asks for a code: each of
    [rounds] is the token of such a reply and the code typed after it. *)
Fixpoint roundCalls (req : account.LoginRequest)
         (rounds : list (account.Token * string)) : trace :=
  match rounds with
  | [] => []
  | (t, code) :: more =>
      Ob (Login req) (inl (t, true))
        :: Ob (PromptString "Enter your 2FA code") (inl code)
        :: roundCalls (account.setTwoFactorToken code req) more
  end.

(** What [promptSecretKey] returns on a reply that asks for no code. *)
Definition loginOutcome (final : result (account.Token * bool)) : result string :=
  match final with
  | inl (t, _) => inl (account.SecretKey t)
  | inr err => inr err
  end.

(** The replies of the service and the lines typed in those rounds. *)
Definition roundReplies (rounds : list (account.Token * string))
  : list (result (account.Token * bool)) :=
  map (fun r => inl (fst r, true)) rounds.

Definition roundCodes (rounds : list (account.Token * string)) : list (result string) :=
  map (fun r => inl (snd r)) rounds.

(** The request the loop holds after those rounds: the code of the last
    round, the email and the password of the first request. *)
Definition lastRequest (req : account.LoginRequest)
           (rounds : list (account.Token * string)) : account.LoginRequest :=
  fold_left (fun r round => account.setTwoFactorToken (snd round) r) rounds req.

(** ** Facts about runs *)

Section RunFacts.

Context {W : Type} (reply : forall X : Type, initE X -> W -> X * W).

Lemma run_S {R : Type} (fuel : nat) (t : itree initE R) (w : W) :
  run reply (S fuel) t w =
  match observe t with
  | RetF r => Some (r, w, [])
  | TauF t' => run reply fuel t' w
  | VisF e k =>
      let (x, w') := reply e w in
      match run reply fuel (k x) w' with
      | Some (r, w'', tr) => Some (r, w'', Ob e x :: tr)
      | None => None
      end
  end.
Proof. reflexivity. Qed.

Lemma run_more {R : Type} (fuel : nat) :
  forall (t : itree initE R) (w : W) (out : R * W * trace),
    run reply fuel t w = Some out ->
    forall extra, run reply (fuel + extra) t w = Some out.
Proof.
  induction fuel as [|fuel IH]; intros t w out Hrun extra; simpl in *.
  - discriminate.
  - destruct (observe t) as [r | t' | X e k]; auto.
    destruct (reply e w) as [x w'].
    destruct (run reply fuel (k x) w') as [[[r w''] tr]|] eqn:Hk; [|discriminate].
    rewrite (IH _ _ _ Hk extra). exact Hrun.
Qed.

(** A tree returns one thing. *)
Lemma returns_unique {R : Type} (t : itree initE R) (w : W) (o1 o2 : R * W * trace) :
  returns reply t w o1 -> returns reply t w o2 -> o1 = o2.
Proof.
  intros [n1 H1] [n2 H2].
  pose proof (run_more _ _ _ H1 n2) as E1.
  pose proof (run_more _ _ _ H2 n1) as E2.
  rewrite Nat.add_comm in E2. congruence.
Qed.

(** One node of [ITree.bind]. *)
Lemma observe_bind_node {A R : Type} (t : itree initE A) (k : A -> itree initE R) :
  observe (ITree.bind t k) =
  match observe t with
  | RetF a => observe (k a)
  | TauF t' => TauF (ITree.bind t' k)
  | VisF e h => VisF e (fun y => ITree.bind (h y) k)
  end.
Proof.
  transitivity
    (observe (match observe t with
              | RetF a => k a
              | TauF t' => Tau (ITree.bind t' k)
              | VisF e h => Vis e (fun y => ITree.bind (h y) k)
              end)).
  - reflexivity.
  - destruct (observe t); reflexivity.
Qed.

Lemma run_bind {A R : Type} (k : A -> itree initE R) (fuel : nat) :
  forall (t : itree initE A) (w w1 w2 : W) (x : A) (r : R) (tr1 tr2 : trace) (fuel2 : nat),
    run reply fuel t w = Some (x, w1, tr1) ->
    run reply fuel2 (k x) w1 = Some (r, w2, tr2) ->
    run reply (fuel + fuel2) (ITree.bind t k) w = Some (r, w2, tr1 ++ tr2).
Proof.
  induction fuel as [|fuel IH]; intros t w w1 w2 x r tr1 tr2 fuel2 Ht Hk.
  - discriminate.
  - change (S fuel + fuel2) with (S (fuel + fuel2)).
    rewrite run_S in Ht. rewrite run_S, observe_bind_node.
    destruct (observe t) as [a | t' | X e h].
    + inversion Ht; subst.
      pose proof (run_more _ _ _ Hk (S fuel)) as Hk'.
      rewrite Nat.add_comm in Hk'. exact Hk'.
    + eapply IH; eauto.
    + destruct (reply e w) as [y w'].
      destruct (run reply fuel (h y) w') as [[[a w''] tr]|] eqn:Hh; [|discriminate].
      inversion Ht; subst.
      rewrite (IH _ _ _ _ _ _ _ _ _ Hh Hk). reflexivity.
Qed.

Lemma returns_bind {A R : Type} (t : itree initE A) (k : A -> itree initE R)
      (w w1 w2 : W) (x : A) (r : R) (tr1 tr2 : trace) :
  returns reply t w (x, w1, tr1) ->
  returns reply (k x) w1 (r, w2, tr2) ->
  returns reply (ITree.bind t k) w (r, w2, tr1 ++ tr2).
Proof.
  intros [n1 H1] [n2 H2]. exists (n1 + n2). eapply run_bind; eauto.
Qed.

Lemma returns_Ret {R : Type} (r : R) (w : W) :
  returns reply (Ret r) w (r, w, []).
Proof. exists 1%nat. reflexivity. Qed.

Lemma returns_Tau {R : Type} (t : itree initE R) (w : W) (out : R * W * trace) :
  returns reply t w out -> returns reply (Tau t) w out.
Proof. intros [n H]. exists (S n). exact H. Qed.

(** A run sees a tree through its nodes only. *)
Lemma returns_observe {R : Type} (t t' : itree initE R) (w : W) (out : R * W * trace) :
  observe t = observe t' -> returns reply t w out -> returns reply t' w out.
Proof.
  intros Hobs [[|n] H]; [discriminate|].
  exists (S n). rewrite run_S in H |- *. rewrite <- Hobs. exact H.
Qed.

(** A call as the last thing a tree does, and a call followed by more. *)
Lemma returns_call {X : Type} (e : initE X) (w w' : W) (x : X) :
  reply e w = (x, w') ->
  returns reply (call e) w (x, w', [Ob e x]).
Proof. intros H. exists 2%nat. cbn. rewrite H. reflexivity. Qed.

Lemma returns_call_bind {X R : Type} (e : initE X) (k : X -> itree initE R)
      (w w' w'' : W) (x : X) (r : R) (tr : trace) :
  reply e w = (x, w') ->
  returns reply (k x) w' (r, w'', tr) ->
  returns reply (ITree.bind (call e) k) w (r, w'', Ob e x :: tr).
Proof.
  intros H Hk.
  change (Ob e x :: tr) with ([Ob e x] ++ tr).
  eapply returns_bind; [apply returns_call; exact H | exact Hk].
Qed.

(** A loop whose body leaves, and a loop whose body goes round again. *)
Lemma returns_iter_done {I R : Type} (body : I -> itree initE (I + R)) (i : I)
      (w w1 : W) (r : R) (tr : trace) :
  returns reply (body i) w (inr r, w1, tr) ->
  returns reply (ITree.iter body i) w (r, w1, tr).
Proof.
  intros H.
  apply returns_observe with
    (t := ITree.bind (body i) (fun lr => match lr with
                                       | inl l => Tau (ITree.iter body l)
                                       | inr r => Ret r
                                       end)); [reflexivity|].
  rewrite <- (app_nil_r tr).
  eapply returns_bind; [exact H | apply returns_Ret].
Qed.

Lemma returns_iter_again {I R : Type} (body : I -> itree initE (I + R)) (i i' : I)
      (w w1 w2 : W) (r : R) (tr1 tr2 : trace) :
  returns reply (body i) w (inl i', w1, tr1) ->
  returns reply (ITree.iter body i') w1 (r, w2, tr2) ->
  returns reply (ITree.iter body i) w (r, w2, tr1 ++ tr2).
Proof.
  intros H Hnext.
  apply returns_observe with
    (t := ITree.bind (body i) (fun lr => match lr with
                                       | inl l => Tau (ITree.iter body l)
                                       | inr r => Ret r
                                       end)); [reflexivity|].
  eapply returns_bind; [exact H | apply returns_Tau; exact Hnext].
Qed.

(** A block that succeeds hands its arguments to the next block. *)
Lemma returns_andThen (first next : step) (args args' : InitArgs)
      (w w1 w2 : W) (out : InitArgs * option error) (tr1 tr2 : trace) :
  returns reply (first args) w ((args', None), w1, tr1) ->
  returns reply (next args') w1 (out, w2, tr2) ->
  returns reply ((first +> next) args) w (out, w2, tr1 ++ tr2).
Proof.
  intros H1 H2. unfold andThen.
  eapply returns_bind; [exact H1 | exact H2].
Qed.

(** A block that fails ends the closure: the next block makes no call. *)
Lemma returns_andThen_error (first next : step) (args args' : InitArgs)
      (w w1 : W) (err : error) (tr1 : trace) :
  returns reply (first args) w ((args', Some err), w1, tr1) ->
  returns reply ((first +> next) args) w ((args', Some err), w1, tr1).
Proof.
  intros H1. unfold andThen.
  rewrite <- (app_nil_r tr1).
  eapply returns_bind; [exact H1 |].
  exists 1%nat. reflexivity.
Qed.

End RunFacts.

(** ** The scripted terminal *)

Lemma empty_line_default (s : string) : (if s =? "" then "" else s) = s.
Proof. destruct (String.eqb_spec s ""); congruence. Qed.

(** A line that passes the validator is what the prompt returns. *)
Lemma readString_line (validate : string -> option error) (w : World)
      (s : string) (rest : list (result string)) :
  lines w = inl s :: rest ->
  validate s = None ->
  readString "" validate w = (inl s, setLines rest w).
Proof.
  intros Hl Hv. unfold readString. rewrite Hl. simpl.
  rewrite empty_line_default, Hv. reflexivity.
Qed.

(** An error at the terminal is what the prompt returns. *)
Lemma readString_error (default : string) (validate : string -> option error)
      (w : World) (err : error) (rest : list (result string)) :
  lines w = inr err :: rest ->
  readString default validate w = (inr err, setLines rest w).
Proof. intros Hl. unfold readString. rewrite Hl. reflexivity. Qed.

(** What a prompt returns passed its validator. *)
Lemma readLine_valid (default : string) (validate : string -> option error)
      (typed : list (result string)) (s : string) :
  fst (readLine default validate typed) = inl s -> validate s = None.
Proof.
  induction typed as [|[l|err] rest IH]; simpl; intros H; try discriminate.
  destruct (validate (if l =? "" then default else l)) eqn:Hv.
  - auto.
  - simpl in H. congruence.
Qed.

Section Flow.

Context {sdk : SDK}.

(** *** promptSecretKey *)

Lemma secretKeyValidateFunc_email (s : string) :
  IsEmail s = true -> secretKeyValidateFunc s = None.
Proof. intros H. unfold secretKeyValidateFunc. rewrite H. reflexivity. Qed.

Lemma secretKeyValidateFunc_uuid (s : string) :
  IsUUID s = true -> secretKeyValidateFunc s = None.
Proof.
  intros H. unfold secretKeyValidateFunc, IsSecretKey. rewrite H.
  rewrite orb_true_r. reflexivity.
Qed.

(** A line of the UUID shape that is no email is the secret key: one call,
    the prompt. *)
Lemma promptSecretKey_literal (w : World) (s : string) (rest : list (result string)) :
  lines w = inl s :: rest ->
  IsEmail s = false ->
  IsUUID s = true ->
  promptSecretKey @ w ~>
    (inl s, setLines rest w, [Ob (Readline secretKeyReadline) (inl s)]).
Proof.
  intros Hl He Hu. unfold promptSecretKey.
  eapply returns_call_bind.
  - simpl. apply readString_line; [exact Hl | apply secretKeyValidateFunc_uuid; exact Hu].
  - unfold classify. rewrite He, Hu. apply returns_Ret.
Qed.

(** An email line leads to the password prompt and then into the loop. *)
Lemma promptSecretKey_email (w w2 : World) (email password : string)
      (rest : list (result string)) (r : result string) (tr : trace) :
  lines w = inl email :: inl password :: rest ->
  IsEmail email = true ->
  ITree.iter loginTurn (firstLogin w email password) @ setLines rest w ~> (r, w2, tr) ->
  promptSecretKey @ w ~>
    (r, w2,
     Ob (Readline secretKeyReadline) (inl email)
       :: Ob (PromptPassword "Enter your password") (inl password)
       :: Ob Hostname (hostname w)
       :: Ob (Getenv "USER") (env w "USER")
       :: tr).
Proof.
  intros Hl He Hloop. unfold promptSecretKey.
  eapply returns_call_bind.
  { simpl. apply readString_line; [exact Hl | apply secretKeyValidateFunc_email; exact He]. }
  unfold classify. rewrite He.
  eapply returns_call_bind.
  { simpl. apply readString_line; reflexivity. }
  eapply returns_call_bind; [reflexivity|].
  eapply returns_call_bind; [reflexivity|].
  exact Hloop.
Qed.

(** An email line and a closed password prompt: the error of the prompt. *)
Lemma promptSecretKey_no_password (w : World) (email : string) (err : error)
      (rest : list (result string)) :
  lines w = inl email :: inr err :: rest ->
  IsEmail email = true ->
  promptSecretKey @ w ~>
    (inr err, setLines rest w,
     [Ob (Readline secretKeyReadline) (inl email);
      Ob (PromptPassword "Enter your password") (inr err)]).
Proof.
  intros Hl He. unfold promptSecretKey.
  eapply returns_call_bind.
  { simpl. apply readString_line; [exact Hl | apply secretKeyValidateFunc_email; exact He]. }
  unfold classify. rewrite He.
  eapply returns_call_bind.
  { simpl. apply readString_error; reflexivity. }
  apply returns_Ret.
Qed.

(** The three ways a turn of the loop can go on a reply of the service. *)
Lemma loginTurn_done (w : World) (req : account.LoginRequest) (t : account.Token)
      (more : list (result (account.Token * bool))) :
  logins w = inl (t, false) :: more ->
  loginTurn req @ w ~>
    (inr (inl (account.SecretKey t)), setLogins more w, [Ob (Login req) (inl (t, false))]).
Proof.
  intros Hl. unfold loginTurn.
  eapply returns_call_bind.
  { simpl. rewrite Hl. reflexivity. }
  apply returns_Ret.
Qed.

Lemma loginTurn_error (w : World) (req : account.LoginRequest) (err : error)
      (more : list (result (account.Token * bool))) :
  logins w = inr err :: more ->
  loginTurn req @ w ~> (inr (inr err), setLogins more w, [Ob (Login req) (inr err)]).
Proof.
  intros Hl. unfold loginTurn.
  eapply returns_call_bind.
  { simpl. rewrite Hl. reflexivity. }
  apply returns_Ret.
Qed.

Lemma loginTurn_code (w : World) (req : account.LoginRequest) (t : account.Token)
      (code : string) (more : list (result (account.Token * bool)))
      (rest : list (result string)) :
  logins w = inl (t, true) :: more ->
  lines w = inl code :: rest ->
  loginTurn req @ w ~>
    (inl (account.setTwoFactorToken code req), setLines rest (setLogins more w),
     [Ob (Login req) (inl (t, true));
      Ob (PromptString "Enter your 2FA code") (inl code)]).
Proof.
  intros Hl Hc. unfold loginTurn.
  eapply returns_call_bind.
  { simpl. rewrite Hl. reflexivity. }
  eapply returns_call_bind.
  { simpl. apply readString_line; [exact Hc | reflexivity]. }
  apply returns_Ret.
Qed.

(** An email, a password and a service that asks for no second factor. *)
Lemma promptSecretKey_login (w : World) (email password : string)
      (rest : list (result string)) (t : account.Token)
      (more : list (result (account.Token * bool))) :
  lines w = inl email :: inl password :: rest ->
  logins w = inl (t, false) :: more ->
  IsEmail email = true ->
  promptSecretKey @ w ~>
    (inl (account.SecretKey t), setLogins more (setLines rest w),
     [Ob (Readline secretKeyReadline) (inl email);
      Ob (PromptPassword "Enter your password") (inl password);
      Ob Hostname (hostname w);
      Ob (Getenv "USER") (env w "USER");
      Ob (Login (firstLogin w email password)) (inl (t, false))]).
Proof.
  intros Hl Hs He.
  eapply promptSecretKey_email; [exact Hl | exact He |].
  apply returns_iter_done.
  apply loginTurn_done. exact Hs.
Qed.

End Flow.

(** ** The secret key *)

Section SecretKey.

Context {sdk : SDK}.

(** C1: an email, then a login that asks for a second factor and a login
    that does not: [promptSecretKey] calls the login endpoint twice, asks
    for the 2FA code once, between the two calls, sends the code with the
    second call and returns the secret key of the second reply. *)
Theorem C1_two_factor_login (w : World) (email password code : string)
        (t1 t2 : account.Token) (rest : list (result string))
        (more : list (result (account.Token * bool))) :
  IsEmail email = true ->
  lines w = inl email :: inl password :: inl code :: rest ->
  logins w = inl (t1, true) :: inl (t2, false) :: more ->
  let req := firstLogin w email password in
  let tr :=
    [Ob (Readline secretKeyReadline) (inl email);
     Ob (PromptPassword "Enter your password") (inl password);
     Ob Hostname (hostname w);
     Ob (Getenv "USER") (env w "USER");
     Ob (Login req) (inl (t1, true));
     Ob (PromptString "Enter your 2FA code") (inl code);
     Ob (Login (account.setTwoFactorToken code req)) (inl (t2, false))] in
  promptSecretKey @ w ~> (inl (account.SecretKey t2), setLogins more (setLines rest w), tr)
  /\ length (filter isLogin tr) = 2%nat
  /\ length (filter isCodePrompt tr) = 1%nat.
Proof.
  intros He Hl Hs req tr. split; [|split; reflexivity].
  eapply promptSecretKey_email; [exact Hl | exact He |].
  change [Ob (Login req) (inl (t1, true));
          Ob (PromptString "Enter your 2FA code") (inl code);
          Ob (Login (account.setTwoFactorToken code req)) (inl (t2, false))]
    with ([Ob (Login req) (inl (t1, true));
           Ob (PromptString "Enter your 2FA code") (inl code)]
          ++ [Ob (Login (account.setTwoFactorToken code req)) (inl (t2, false))]).
  eapply returns_iter_again.
  - apply loginTurn_code with (more := inl (t2, false) :: more) (rest := rest).
    + exact Hs.
    + reflexivity.
  - apply returns_iter_done.
    apply (loginTurn_done (setLines rest (setLogins (inl (t2, false) :: more)
                                            (setLines (inl code :: rest) w)))).
    reflexivity.
Qed.

(** The switch tests the email shape first (line 265), as the prompt's
    highlighting does (line 245): a line of the email shape is an email for
    both, whatever [validation.IsUUID] says of it. *)
Lemma classify_email_first (s : string) :
  IsEmail s = true ->
  classify s = ClassEmail /\ secretKeyPromptFunc s = HighlightEmail.
Proof.
  intros He. unfold classify, secretKeyPromptFunc. rewrite He. split; reflexivity.
Qed.

(** C5: the UUID shape is a shape of the whole line, so that no line of
    the UUID shape is of the email shape.  Then every line of the UUID
    shape is let through by the validator of the prompt, is a UUID for the
    switch, and is returned as it is; the prompt is the only call: no
    password prompt, no call to the account service. *)
Theorem C5_uuid_literal (w : World) (s : string) (rest : list (result string)) :
  (forall line, IsUUID line = true -> IsEmail line = false) ->
  lines w = inl s :: rest ->
  IsUUID s = true ->
  let tr := [Ob (Readline secretKeyReadline) (inl s)] in
  secretKeyValidateFunc s = None
  /\ classify s = ClassUUID
  /\ promptSecretKey @ w ~> (inl s, setLines rest w, tr)
  /\ filter isAccountCall tr = []
  /\ filter isPrompt tr = tr.
Proof.
  intros Hshapes Hl Hu tr.
  pose proof (Hshapes s Hu) as He.
  split; [apply secretKeyValidateFunc_uuid; exact Hu|].
  split; [unfold classify; rewrite He, Hu; reflexivity|].
  split; [|split; reflexivity].
  apply promptSecretKey_literal; assumption.
Qed.

(** C10: a line that the validator of the secret-key prompt lets through
    is an email or a UUID for the switch, never its default case; a line
    that is no email and has the secret-key shape has the UUID shape. *)
Theorem C10_default_unreachable (s : string) :
  secretKeyValidateFunc s = None ->
  (classify s = ClassEmail \/ classify s = ClassUUID)
  /\ (IsEmail s = false -> IsSecretKey s = true -> IsUUID s = true).
Proof.
  unfold secretKeyValidateFunc, classify, IsSecretKey. intros Hv. split.
  - destruct (IsEmail s); [left; reflexivity|].
    destruct (IsUUID s); [right; reflexivity|].
    simpl in Hv. discriminate.
  - intros _ Hk. exact Hk.
Qed.

End SecretKey.

(** ** The organization *)

Section Organization.

Context {sdk : SDK}.

(** [promptOrganizationID] is one prompt, and returns what it returns. *)
Lemma promptOrganizationID_returns (w : World) (IDs : list string) :
  let config := organizationIDPrompt IDs in
  let answer := scripted (PromptStringWithConfig config) w in
  promptOrganizationID IDs @ w ~>
    (fst answer, snd answer, [Ob (PromptStringWithConfig config) (fst answer)]).
Proof.
  intros config answer. unfold promptOrganizationID.
  eapply returns_call_bind.
  - apply surjective_pairing.
  - destruct (fst answer); apply returns_Ret.
Qed.

(** C6: when the query for the organizations fails, the error is logged as
    a warning and not returned: [getOrganizationID] goes on to the prompt
    with no default value and returns what the prompt returns, the same
    prompt and the same answer as in a world where the query returns the
    empty list and the same lines are typed. *)
Theorem C6_query_error_falls_through (w : World) (secretKey : string) (err : error) :
  organizations w secretKey = inr err ->
  let config := organizationIDPrompt [] in
  let answer := scripted (PromptStringWithConfig config) w in
  getOrganizationID secretKey @ w ~>
    (fst answer, snd answer,
     [Ob (GetOrganizationsIds secretKey) (inr err);
      Ob (Warningf err) tt;
      Ob (PromptStringWithConfig config) (fst answer)])
  /\ DefaultValue config = ""
  /\ forall w0 : World,
       organizations w0 secretKey = inl [] ->
       lines w0 = lines w ->
       exists w0',
         getOrganizationID secretKey @ w0 ~>
           (fst answer, w0',
            [Ob (GetOrganizationsIds secretKey) (inl []);
             Ob (PromptStringWithConfig config) (fst answer)])
         /\ lines w0' = lines (snd answer).
Proof.
  intros Hq config answer. split; [|split; [reflexivity|]].
  - unfold getOrganizationID.
    eapply returns_call_bind; [simpl; rewrite Hq; reflexivity|].
    eapply returns_call_bind; [reflexivity|].
    apply (promptOrganizationID_returns w []).
  - intros w0 Hq0 Hl.
    pose proof (promptOrganizationID_returns w0 []) as H0. cbv zeta in H0.
    assert (Hfst : fst (scripted (PromptStringWithConfig config) w0) = fst answer).
    { unfold answer. simpl. unfold readString. rewrite Hl.
      destruct (readLine _ _ (lines w)); reflexivity. }
    assert (Hsnd : lines (snd (scripted (PromptStringWithConfig config) w0))
                   = lines (snd answer)).
    { unfold answer. simpl. unfold readString. rewrite Hl.
      destruct (readLine _ _ (lines w)); reflexivity. }
    exists (snd (scripted (PromptStringWithConfig config) w0)). split; [|exact Hsnd].
    unfold getOrganizationID.
    eapply returns_call_bind; [simpl; rewrite Hq0; reflexivity|].
    simpl negb. cbv iota. fold config in H0. rewrite Hfst in H0. exact H0.
Qed.

(** C7: when the query returns exactly one ID, [getOrganizationID] returns
    it and the query is its only call; when it returns none or several,
    the function prompts, with the first ID of the list as the default when
    there is one, with [ValidateOrganizationID] as the validator, and
    returns what the prompt returns: an ID that passed the validator. *)
Theorem C7_single_or_prompt (w : World) (secretKey : string) (IDs : list string) :
  organizations w secretKey = inl IDs ->
  (forall only, IDs = [only] ->
     getOrganizationID secretKey @ w ~>
       (inl only, w, [Ob (GetOrganizationsIds secretKey) (inl IDs)]))
  /\ (length IDs <> 1%nat ->
      let config := organizationIDPrompt IDs in
      let answer := scripted (PromptStringWithConfig config) w in
      getOrganizationID secretKey @ w ~>
        (fst answer, snd answer,
         [Ob (GetOrganizationsIds secretKey) (inl IDs);
          Ob (PromptStringWithConfig config) (fst answer)])
      /\ ValidateFunc config = ValidateOrganizationID
      /\ DefaultValue config = hd "" IDs
      /\ forall ID, fst answer = inl ID -> ValidateOrganizationID ID = None).
Proof.
  intros Hq. split.
  - intros only ->. unfold getOrganizationID.
    eapply returns_call_bind; [simpl; rewrite Hq; reflexivity|].
    apply returns_Ret.
  - intros Hlen config answer. split; [|split; [|split]].
    + unfold getOrganizationID.
      eapply returns_call_bind; [simpl; rewrite Hq; reflexivity|].
      cbv iota. apply Nat.eqb_neq in Hlen. rewrite Hlen. simpl negb. cbv iota.
      apply promptOrganizationID_returns.
    + unfold config, organizationIDPrompt. destruct IDs; reflexivity.
    + unfold config, organizationIDPrompt. destruct IDs; reflexivity.
    + intros ID Hans.
      assert (Hv : ValidateFunc config ID = None).
      { apply readLine_valid with (default := DefaultValue config) (typed := lines w).
        revert Hans. unfold answer. simpl. unfold readString.
        destruct (readLine _ _ (lines w)); simpl; auto. }
      revert Hv. unfold config, organizationIDPrompt. destruct IDs; simpl; auto.
Qed.

End Organization.

(** ** PreValidateFunc *)

Section PreValidate.

Context {sdk : SDK}.

Lemma showBanner_returns (w : World) (args : InitArgs) :
  showBanner args @ w ~>
    ((args, None), w, [Ob GetWidth (width w); Ob (Printf (banner w)) tt]).
Proof.
  unfold showBanner, banner.
  eapply returns_call_bind; [reflexivity|].
  destruct (80 <=? width w)%Z;
    (eapply returns_call_bind; [reflexivity | apply returns_Ret]).
Qed.

(** No config file: nothing to confirm. *)
Lemma confirmOverride_new (w : World) (args : InitArgs) :
  disk w = None ->
  confirmOverride args @ w ~>
    ((args, None), w, [Ob LoadConfig (inr (Errorf "config file not found"))]).
Proof.
  intros Hd. unfold confirmOverride.
  eapply returns_call_bind; [simpl; rewrite Hd; reflexivity|].
  apply returns_Ret.
Qed.

(** A config file and the answer to the confirmation. *)
Lemma confirmOverride_answer (w : World) (args : InitArgs) (config : scw.Config)
      (answer : bool) (more : list (result bool)) :
  disk w = Some config ->
  confirms w = inl answer :: more ->
  confirmOverride args @ w ~>
    ((args, if answer then None else Some (Errorf "initialization cancelled")),
     setConfirms more w,
     [Ob LoadConfig (inl config);
      Ob GetConfigPath (configPath w);
      Ob (Printf (CurrentConfig (configPath w) config)) tt;
      Ob (PromptBoolWithConfig overridePrompt) (inl answer)]).
Proof.
  intros Hd Hc. unfold confirmOverride.
  eapply returns_call_bind; [simpl; rewrite Hd; reflexivity|].
  eapply returns_call_bind; [reflexivity|].
  eapply returns_call_bind; [reflexivity|].
  eapply returns_call_bind; [simpl; rewrite Hc; reflexivity|].
  destruct answer; apply returns_Ret.
Qed.

(** A secret key given on the command line: no prompt. *)
Lemma askSecretKey_given (w : World) (args : InitArgs) :
  SecretKey args <> "" ->
  askSecretKey args @ w ~> ((args, None), w, []).
Proof.
  intros Hk. unfold askSecretKey.
  apply String.eqb_neq in Hk. rewrite Hk. apply returns_Ret.
Qed.

(** The zone prompt fails: [scw.ParseZone] is applied to the empty string
    and the closure returns its error. *)
Lemma askZone_prompt_error (w : World) (args : InitArgs) (err err' : error)
      (rest : list (result string)) :
  Zone args = "" ->
  lines w = inr err :: rest ->
  ParseZone "" = inr err' ->
  askZone args @ w ~>
    ((setZone "" args, Some err'), setLines rest w,
     [Ob (PromptStringWithConfig zonePrompt) (inr err)]).
Proof.
  intros Hz Hl Hp. unfold askZone. rewrite Hz. simpl.
  eapply returns_call_bind.
  { simpl. apply readString_error. exact Hl. }
  simpl. rewrite Hp. apply returns_Ret.
Qed.

Lemma askZone_given (w : World) (args : InitArgs) :
  Zone args <> "" ->
  askZone args @ w ~> ((args, None), w, []).
Proof.
  intros Hz. unfold askZone.
  apply String.eqb_neq in Hz. rewrite Hz. apply returns_Ret.
Qed.

Lemma deduceRegion_returns (w : World) (args : InitArgs) :
  Region args = "" ->
  deduceRegion args @ w ~>
    (match ZoneRegion (Zone args) with
     | inl region => (setRegion region args, None)
     | inr err => (setRegion "" args, Some err)
     end, w, []).
Proof.
  intros Hr. unfold deduceRegion. rewrite Hr. simpl.
  destruct (ZoneRegion (Zone args)); apply returns_Ret.
Qed.

(** No config file and a secret key on the command line: the closure gets
    to the zone block without a prompt. *)
Lemma opening_given (w : World) (args : InitArgs) :
  disk w = None ->
  SecretKey args <> "" ->
  (showBanner +> confirmOverride +> askSecretKey) args @ w ~>
    ((args, None), w, openingCalls w).
Proof.
  intros Hd Hk. unfold openingCalls.
  change [Ob GetWidth (width w); Ob (Printf (banner w)) tt;
          Ob LoadConfig (inr (Errorf "config file not found"))]
    with (([Ob GetWidth (width w); Ob (Printf (banner w)) tt]
           ++ [Ob LoadConfig (inr (Errorf "config file not found"))]) ++ []).
  eapply returns_andThen; [|apply askSecretKey_given; exact Hk].
  eapply returns_andThen; [apply showBanner_returns|].
  apply confirmOverride_new. exact Hd.
Qed.

(** ... and past it when the zone is given too. *)
Lemma resolveZone_given (w : World) (args : InitArgs) :
  disk w = None ->
  SecretKey args <> "" ->
  Zone args <> "" ->
  resolveZone args @ w ~> ((args, None), w, openingCalls w).
Proof.
  intros Hd Hk Hz. unfold resolveZone.
  rewrite <- (app_nil_r (openingCalls w)).
  eapply returns_andThen; [apply opening_given; assumption|].
  apply askZone_given. exact Hz.
Qed.

(** The other prompts of the closure hand their error back as it is. *)
Lemma confirmOverride_prompt_error (w : World) (args : InitArgs) (config : scw.Config)
      (err : error) (more : list (result bool)) :
  disk w = Some config ->
  confirms w = inr err :: more ->
  confirmOverride args @ w ~>
    ((args, Some err), setConfirms more w,
     [Ob LoadConfig (inl config);
      Ob GetConfigPath (configPath w);
      Ob (Printf (CurrentConfig (configPath w) config)) tt;
      Ob (PromptBoolWithConfig overridePrompt) (inr err)]).
Proof.
  intros Hd Hc. unfold confirmOverride.
  eapply returns_call_bind; [simpl; rewrite Hd; reflexivity|].
  eapply returns_call_bind; [reflexivity|].
  eapply returns_call_bind; [reflexivity|].
  eapply returns_call_bind; [simpl; rewrite Hc; reflexivity|].
  apply returns_Ret.
Qed.

Lemma askSecretKey_prompt_error (w : World) (args : InitArgs) (err : error)
      (rest : list (result string)) :
  SecretKey args = "" ->
  lines w = inr err :: rest ->
  askSecretKey args @ w ~>
    ((setSecretKey "" args, Some err), setLines rest w,
     [Ob (Readline secretKeyReadline) (inr err)]).
Proof.
  intros Hk Hl. unfold askSecretKey, promptSecretKey. rewrite Hk. simpl.
  rewrite <- (app_nil_r [Ob (Readline secretKeyReadline) (inr err)]).
  eapply returns_bind.
  - eapply returns_call_bind; [simpl; apply readString_error; exact Hl|].
    apply returns_Ret.
  - apply returns_Ret.
Qed.

Lemma askSendUsage_prompt_error (w : World) (args : InitArgs) (err : error)
      (more : list (result bool)) :
  SendUsage args = None ->
  confirms w = inr err :: more ->
  askSendUsage args @ w ~>
    ((setSendUsage (Some false) args, Some err), setConfirms more w,
     [Ob (Printf BlankLine) tt;
      Ob (Printf UsageNotice) tt;
      Ob (PromptBoolWithConfig sendUsagePrompt) (inr err)]).
Proof.
  intros Hu Hc. unfold askSendUsage. rewrite Hu.
  eapply returns_call_bind; [reflexivity|].
  eapply returns_call_bind; [reflexivity|].
  eapply returns_call_bind; [simpl; rewrite Hc; reflexivity|].
  apply returns_Ret.
Qed.

(** C8: a config file exists and the user answers no to the confirmation:
    the closure returns "initialization cancelled" after the confirmation,
    its last call; no prompt of a resolver, no call to the account service
    and no write happen, and the config file is the one that was there. *)
Theorem C8_override_declined (w : World) (args : InitArgs) (config : scw.Config)
        (more : list (result bool)) :
  disk w = Some config ->
  confirms w = inl false :: more ->
  let tr :=
    [Ob GetWidth (width w);
     Ob (Printf (banner w)) tt;
     Ob LoadConfig (inl config);
     Ob GetConfigPath (configPath w);
     Ob (Printf (CurrentConfig (configPath w) config)) tt;
     Ob (PromptBoolWithConfig overridePrompt) (inl false)] in
  PreValidateFunc args @ w ~>
    ((args, Some (Errorf "initialization cancelled")), setConfirms more w, tr)
  /\ disk (setConfirms more w) = Some config
  /\ filter isSave tr = []
  /\ filter isAccountCall tr = [].
Proof.
  intros Hd Hc tr. split; [|split; [exact Hd | split; reflexivity]].
  unfold PreValidateFunc, resolveZone.
  do 5 apply returns_andThen_error.
  change tr with ([Ob GetWidth (width w); Ob (Printf (banner w)) tt]
                  ++ [Ob LoadConfig (inl config);
                      Ob GetConfigPath (configPath w);
                      Ob (Printf (CurrentConfig (configPath w) config)) tt;
                      Ob (PromptBoolWithConfig overridePrompt) (inl false)]).
  eapply returns_andThen; [apply showBanner_returns|].
  apply (confirmOverride_answer w args Hd Hc).
Qed.

(** C3 at the zone prompt: the blocks before it have succeeded, no zone
    was given and the prompt returns an error.  The closure does stop at
    the prompt, but what it returns is the error of [scw.ParseZone] on the
    empty string; the error of the prompt is not returned. *)
Theorem C3_zone_prompt_error_replaced (w w1 : World) (args a : InitArgs)
        (tr : trace) (err err' : error) (rest : list (result string)) :
  (showBanner +> confirmOverride +> askSecretKey) args @ w ~> ((a, None), w1, tr) ->
  Zone a = "" ->
  lines w1 = inr err :: rest ->
  ParseZone "" = inr err' ->
  PreValidateFunc args @ w ~>
    ((setZone "" a, Some err'), setLines rest w1,
     tr ++ [Ob (PromptStringWithConfig zonePrompt) (inr err)]).
Proof.
  intros Hpre Hz Hl Hp.
  unfold PreValidateFunc, resolveZone.
  do 3 apply returns_andThen_error.
  eapply returns_andThen; [exact Hpre|].
  apply askZone_prompt_error; assumption.
Qed.

(** C9: the blocks up to the zone have succeeded and no region was given.
    When [Zone.Region] knows the zone, the region block makes no call and
    the arguments it hands on hold that region, the other arguments as they
    were; when it does not, the closure returns its error there, with an
    empty region and no further call.  So when [Zone.Region] maps fr-par-1
    to fr-par, as the spec has it, and the zone is fr-par-1, the region in
    the arguments is fr-par. *)
Theorem C9_region_from_zone (w w1 : World) (args a : InitArgs) (tr : trace) :
  resolveZone args @ w ~> ((a, None), w1, tr) ->
  Region a = "" ->
  match ZoneRegion (Zone a) with
  | inl region =>
      (resolveZone +> deduceRegion) args @ w ~>
        (({| SecretKey := SecretKey a; Region := region; Zone := Zone a;
             OrganizationID := OrganizationID a; SendUsage := SendUsage a |}, None),
         w1, tr)
  | inr err =>
      PreValidateFunc args @ w ~>
        (({| SecretKey := SecretKey a; Region := ""; Zone := Zone a;
             OrganizationID := OrganizationID a; SendUsage := SendUsage a |}, Some err),
         w1, tr)
  end
  /\ (Zone a = "fr-par-1" ->
      ZoneRegion "fr-par-1" = inl "fr-par" ->
      (resolveZone +> deduceRegion) args @ w ~>
        (({| SecretKey := SecretKey a; Region := "fr-par"; Zone := "fr-par-1";
             OrganizationID := OrganizationID a; SendUsage := SendUsage a |}, None),
         w1, tr)).
Proof.
  intros Hpre Hr.
  pose proof (deduceRegion_returns w1 a Hr) as Hd.
  split.
  - destruct (ZoneRegion (Zone a)) as [region | err].
    + rewrite <- (app_nil_r tr).
      eapply returns_andThen; [exact Hpre | exact Hd].
    + unfold PreValidateFunc.
      do 2 apply returns_andThen_error.
      rewrite <- (app_nil_r tr).
      eapply returns_andThen; [exact Hpre | exact Hd].
  - intros Hz Hmap. rewrite Hz, Hmap in Hd. unfold setRegion in Hd. rewrite Hz in Hd.
    rewrite <- (app_nil_r tr).
    eapply returns_andThen; [exact Hpre | exact Hd].
Qed.

End PreValidate.

(** ** Run *)

Lemma lookup_update (name : string) (f : scw.Profile -> scw.Profile)
      (ps : list (string * scw.Profile)) :
  scw.lookup name (scw.update name f ps) = option_map f (scw.lookup name ps).
Proof.
  induction ps as [|[n p] ps IH]; simpl; [reflexivity|].
  destruct (n =? name) eqn:E; simpl; rewrite E; auto.
Qed.

(** Reading through the pointer after an assignment through it. *)
Lemma deref_assign (c : scw.Config) (p : scw.ProfilePtr) (f : scw.Profile -> scw.Profile) :
  scw.GetActiveProfile c = inl p ->
  scw.deref (scw.assign p f c) p = f (scw.deref c p).
Proof.
  unfold scw.GetActiveProfile. intros H.
  destruct (scw.ActiveProfile c) as [name|].
  - destruct (scw.lookup name (scw.Profiles c)) as [pr|] eqn:E; [|discriminate].
    inversion H; subst. simpl. rewrite lookup_update, E. reflexivity.
  - inversion H; subst. reflexivity.
Qed.

(** The run of [Run] up to the reply of the first write. *)
Lemma Run_first_save (w w2 : World) (args : InitArgs) (profile : scw.ProfilePtr)
      (out : RunValue * option error) (tr : trace) :
  scw.GetActiveProfile (loadedConfig args w) = inl profile ->
  hd None (saves w) = None ->
  let saved := scw.assign profile (fillProfile args) (loadedConfig args w) in
  (a <- call (GetAccessKey (SecretKey args)) ;;
   match a with
   | inr err =>
       path <- call GetConfigPath ;;
       call (Printf (ConfigSaved path saved)) ;;
       Ret (EmptyText, Some (CliError err accessKeyDetails))
   | inl accessKey =>
       let config := scw.assign profile (scw.setAccessKey accessKey) saved in
       s <- call (Save config) ;;
       match s with
       | Some err => Ret (Nil, Some err)
       | None => Ret (SuccessResult, None)
       end
   end) @ setDisk (Some saved) (tl (saves w)) w ~> (out, w2, tr) ->
  Run args @ w ~> (out, w2, loadCalls w ++ Ob (Save saved) None :: tr).
Proof.
  intros Hp Hs saved Hrest. subst saved.
  unfold Run, loadCalls. unfold loadedConfig in Hp, Hrest |- *.
  assert (Hsave : forall config,
             scripted (Save config) w = (None, setDisk (Some config) (tl (saves w)) w)).
  { intros config. simpl.
    destruct (saves w) as [|[e|] more]; simpl in *; try discriminate; reflexivity. }
  destruct (disk w) as [config|] eqn:Hd.
  - eapply returns_call_bind; [simpl; rewrite Hd; reflexivity|].
    match goal with
    | |- returns _ _ _ (_, _, ?t) => change t with ([] ++ t)
    end.
    eapply returns_bind; [apply returns_Ret|].
    cbv zeta. rewrite Hp.
    eapply returns_call_bind; [apply Hsave | exact Hrest].
  - eapply returns_call_bind; [simpl; rewrite Hd; reflexivity|].
    match goal with
    | |- returns _ _ _ (_, _, ?a :: ?b :: ?t) => change (a :: b :: t) with ([a; b] ++ t)
    end.
    eapply returns_bind.
    + eapply returns_call_bind; [reflexivity|].
      eapply returns_call_bind; [reflexivity|].
      apply returns_Ret.
    + cbv zeta. rewrite Hp.
      eapply returns_call_bind; [apply Hsave | exact Hrest].
Qed.

(** C4: the config with the four profile fields is written before the
    access key is asked for; when that request fails [Run] returns a
    [CliError] with the request's error and the detail text of line 227,
    "Failed to retrieve Access Key for the given Secret Key.", after
    showing the saved config; it writes nothing more, and the file holds
    the config of the first write. *)
Theorem C4_access_key_failure (w : World) (args : InitArgs)
        (profile : scw.ProfilePtr) (err : error) :
  scw.GetActiveProfile (loadedConfig args w) = inl profile ->
  hd None (saves w) = None ->
  accessKeys w (SecretKey args) = inr err ->
  let saved := scw.assign profile (fillProfile args) (loadedConfig args w) in
  let w' := setDisk (Some saved) (tl (saves w)) w in
  let tr :=
    loadCalls w ++
    [Ob (Save saved) None;
     Ob (GetAccessKey (SecretKey args)) (inr err);
     Ob GetConfigPath (configPath w);
     Ob (Printf (ConfigSaved (configPath w) saved)) tt] in
  Run args @ w ~>
    ((EmptyText,
      Some (CliError err "Failed to retrieve Access Key for the given Secret Key.")),
     w', tr)
  /\ disk w' = Some saved
  /\ length (filter isSave tr) = 1%nat
  /\ scw.SecretKey (scw.deref saved profile) = Some (SecretKey args)
  /\ scw.DefaultZone (scw.deref saved profile) = Some (Zone args)
  /\ scw.DefaultRegion (scw.deref saved profile) = Some (Region args)
  /\ scw.DefaultOrganizationID (scw.deref saved profile) = Some (OrganizationID args).
Proof.
  intros Hp Hs Ha saved w' tr.
  split; [|split; [reflexivity | split]].
  - apply Run_first_save; [exact Hp | exact Hs |].
    fold saved. fold w'.
    eapply returns_call_bind; [simpl; rewrite Ha; reflexivity|].
    eapply returns_call_bind; [reflexivity|].
    eapply returns_call_bind; [reflexivity|].
    apply returns_Ret.
  - unfold tr, loadCalls. destruct (disk w); reflexivity.
  - unfold saved. rewrite (deref_assign _ _ Hp). repeat split.
Qed.

(** ** Concrete runs *)

Lemma C1_two_factor_login_witness :
  IsEmail "u@example.com" = true
  /\ promptSecretKey @ twoFactorWorld ~>
       (inl uuid, quiet,
        [Ob (Readline secretKeyReadline) (inl "u@example.com");
         Ob (PromptPassword "Enter your password") (inl "hunter2");
         Ob Hostname (inl "laptop");
         Ob (Getenv "USER") "u";
         Ob (Login (firstLogin quiet "u@example.com" "hunter2")) (inl (token1, true));
         Ob (PromptString "Enter your 2FA code") (inl "123456");
         Ob (Login (account.setTwoFactorToken "123456"
                      (firstLogin quiet "u@example.com" "hunter2")))
            (inl (token2, false))]).
Proof.
  split; [reflexivity|].
  exact (proj1 (@C1_two_factor_login shapes twoFactorWorld "u@example.com" "hunter2"
                  "123456" token1 token2 [] [] eq_refl eq_refl eq_refl)).
Defined.

(** The shapes of the modelled SDK: a hexadecimal digit is no at sign, so
    a line of the UUID shape holds none, and a line of the email shape
    holds one. *)
Lemma isHex_not_at (c : ascii) : isHex c = true -> Ascii.eqb c "@" = false.
Proof.
  intros H. destruct (Ascii.eqb_spec c "@") as [E|]; [|reflexivity].
  subst c. cbv in H. discriminate H.
Qed.

Lemma hexDigits_hasAt (n : nat) :
  forall s rest, hexDigits n s = Some rest -> hasAt s = hasAt rest.
Proof.
  induction n as [|n IH]; intros s rest H; simpl in H.
  - injection H as <-. reflexivity.
  - destruct s as [|c s']; [discriminate H|].
    destruct (isHex c) eqn:Hc; [|discriminate H].
    simpl. rewrite (isHex_not_at _ Hc). simpl. apply IH. exact H.
Qed.

Lemma hexGroups_hasAt (sizes : list nat) :
  forall s, hexGroups sizes s = true -> hasAt s = false.
Proof.
  induction sizes as [|n more IH]; intros s H.
  - destruct s; [reflexivity | discriminate H].
  - destruct more as [|m more'].
    + simpl in H.
      destruct (hexDigits n s) as [[|c r]|] eqn:E; try discriminate H.
      rewrite (hexDigits_hasAt _ _ E). reflexivity.
    + change (match hexDigits n s with
              | Some (String c rest) => Ascii.eqb c "-" && hexGroups (m :: more') rest
              | _ => false
              end = true) in H.
      destruct (hexDigits n s) as [[|c r]|] eqn:E; try discriminate H.
      apply andb_true_iff in H. destruct H as [Hc Hr].
      rewrite (hexDigits_hasAt _ _ E). simpl.
      apply Ascii.eqb_eq in Hc. subst c. simpl. apply IH. exact Hr.
Qed.

Lemma atSign_hasAt (s : string) : atSign s = true -> hasAt s = true.
Proof.
  induction s as [|c s IH]; simpl; intros H; [discriminate H|].
  apply orb_true_iff in H. destruct H as [H | H].
  - apply andb_true_iff in H. destruct H as [H _]. rewrite H. reflexivity.
  - rewrite (IH H). apply orb_true_r.
Qed.

Lemma uuid_not_email (line : string) :
  uuidShape line = true -> emailShape line = false.
Proof.
  intros Hu. destruct (emailShape line) eqn:He; [|reflexivity].
  assert (Hat : hasAt line = true).
  { destruct line as [|c rest]; [discriminate He|].
    simpl in He. simpl. rewrite (atSign_hasAt _ He). apply orb_true_r. }
  rewrite (hexGroups_hasAt _ _ Hu) in Hat. discriminate Hat.
Qed.

Lemma C5_uuid_literal_witness :
  (forall line, @IsUUID shapes line = true -> @IsEmail shapes line = false)
  /\ IsUUID uuid = true
  /\ secretKeyValidateFunc uuid = None
  /\ classify uuid = ClassUUID
  /\ promptSecretKey @ setLines [inl uuid] quiet ~>
       (inl uuid, quiet, [Ob (Readline secretKeyReadline) (inl uuid)])
  /\ filter isAccountCall [Ob (Readline secretKeyReadline) (inl uuid)] = []
  /\ filter isPrompt [Ob (Readline secretKeyReadline) (inl uuid)]
     = [Ob (Readline secretKeyReadline) (inl uuid)].
Proof.
  split; [exact uuid_not_email|]. split; [reflexivity|].
  exact (@C5_uuid_literal shapes (setLines [inl uuid] quiet) uuid []
           uuid_not_email eq_refl eq_refl).
Defined.

Lemma C10_default_unreachable_witness :
  secretKeyValidateFunc uuid = None
  /\ (classify uuid = ClassEmail \/ classify uuid = ClassUUID).
Proof.
  split; [reflexivity|].
  exact (proj1 (@C10_default_unreachable shapes uuid eq_refl)).
Defined.

Lemma C6_query_error_falls_through_witness :
  organizations refused uuid = inr (Errorf "unauthorized")
  /\ getOrganizationID uuid @ refused ~>
       (inl organization2, setLines [] refused,
        [Ob (GetOrganizationsIds uuid) (inr (Errorf "unauthorized"));
         Ob (Warningf (Errorf "unauthorized")) tt;
         Ob (PromptStringWithConfig (organizationIDPrompt [])) (inl organization2)]).
Proof.
  split; [reflexivity|].
  exact (proj1 (@C6_query_error_falls_through shapes refused uuid (Errorf "unauthorized")
                  eq_refl)).
Defined.

Lemma C7_single_or_prompt_witness :
  organizations twoOrganizations uuid = inl [organization1; organization2]
  /\ getOrganizationID uuid @ twoOrganizations ~>
       (inl organization1, setLines [] twoOrganizations,
        [Ob (GetOrganizationsIds uuid) (inl [organization1; organization2]);
         Ob (PromptStringWithConfig (organizationIDPrompt [organization1; organization2]))
            (inl organization1)]).
Proof.
  split; [reflexivity|].
  refine (proj1 (proj2 (@C7_single_or_prompt shapes twoOrganizations uuid
                          [organization1; organization2] eq_refl) _)).
  simpl. discriminate.
Defined.

Lemma C8_override_declined_witness :
  disk configured = Some existing
  /\ confirms configured = [inl false]
  /\ PreValidateFunc noArgs @ configured ~>
       ((noArgs, Some (Errorf "initialization cancelled")),
        setConfirms [] configured,
        [Ob GetWidth 120%Z;
         Ob (Printf Logo) tt;
         Ob LoadConfig (inl existing);
         Ob GetConfigPath "/home/u/.config/scw/config.yaml";
         Ob (Printf (CurrentConfig "/home/u/.config/scw/config.yaml" existing)) tt;
         Ob (PromptBoolWithConfig overridePrompt) (inl false)]).
Proof.
  split; [reflexivity|]. split; [reflexivity|].
  exact (proj1 (@C8_override_declined shapes configured noArgs existing []
                  eq_refl eq_refl)).
Defined.

(** The zone prompt returns [EOF]; the closure returns "bad zone format". *)
Lemma C3_zone_prompt_error_replaced_witness :
  (showBanner +> confirmOverride +> askSecretKey) (keyArgs "") @ closed ~>
    ((keyArgs "", None), closed, opening)
  /\ lines closed = [inr EOF]
  /\ ParseZone "" = inr (Errorf "bad zone format")
  /\ PreValidateFunc (keyArgs "") @ closed ~>
       ((keyArgs "", Some (Errorf "bad zone format")), quiet,
        opening ++ [Ob (PromptStringWithConfig zonePrompt) (inr EOF)]).
Proof.
  assert (Hpre : (showBanner +> confirmOverride +> askSecretKey) (keyArgs "") @ closed ~>
                   ((keyArgs "", None), closed, opening)).
  { apply (@opening_given shapes closed (keyArgs "")); [reflexivity | discriminate]. }
  split; [exact Hpre|]. split; [reflexivity|]. split; [reflexivity|].
  exact (@C3_zone_prompt_error_replaced shapes closed closed (keyArgs "") (keyArgs "")
           opening EOF (Errorf "bad zone format") [] Hpre eq_refl eq_refl eq_refl).
Defined.

(** fr-par-1 on the command line: the arguments get the region fr-par.
    A zone that [Zone.Region] does not know: the closure returns its
    error, with no region and no call after the opening ones. *)
Lemma C9_region_from_zone_witness :
  (resolveZone (keyArgs "fr-par-1") @ quiet ~> ((keyArgs "fr-par-1", None), quiet, opening)
   /\ Region (keyArgs "fr-par-1") = ""
   /\ ZoneRegion "fr-par-1" = inl "fr-par"
   /\ (resolveZone +> deduceRegion) (keyArgs "fr-par-1") @ quiet ~>
        (({| SecretKey := uuid; Region := "fr-par"; Zone := "fr-par-1";
             OrganizationID := ""; SendUsage := None |}, None), quiet, opening))
  /\ (resolveZone (keyArgs "paris") @ quiet ~> ((keyArgs "paris", None), quiet, opening)
      /\ Region (keyArgs "paris") = ""
      /\ ZoneRegion "paris" = inr (Errorf "unknown zone")
      /\ PreValidateFunc (keyArgs "paris") @ quiet ~>
           (({| SecretKey := uuid; Region := ""; Zone := "paris";
                OrganizationID := ""; SendUsage := None |},
             Some (Errorf "unknown zone")), quiet, opening)).
Proof.
  assert (Hknown : resolveZone (keyArgs "fr-par-1") @ quiet ~>
                     ((keyArgs "fr-par-1", None), quiet, opening)).
  { apply (@resolveZone_given shapes quiet (keyArgs "fr-par-1"));
      [reflexivity | discriminate | discriminate]. }
  assert (Hunknown : resolveZone (keyArgs "paris") @ quiet ~>
                       ((keyArgs "paris", None), quiet, opening)).
  { apply (@resolveZone_given shapes quiet (keyArgs "paris"));
      [reflexivity | discriminate | discriminate]. }
  split.
  - split; [exact Hknown|]. split; [reflexivity|]. split; [reflexivity|].
    exact (proj2 (@C9_region_from_zone shapes quiet quiet (keyArgs "fr-par-1")
                    (keyArgs "fr-par-1") opening Hknown eq_refl) eq_refl eq_refl).
  - split; [exact Hunknown|]. split; [reflexivity|]. split; [reflexivity|].
    exact (proj1 (@C9_region_from_zone shapes quiet quiet (keyArgs "paris")
                    (keyArgs "paris") opening Hunknown eq_refl)).
Defined.

Lemma C4_access_key_failure_witness :
  scw.GetActiveProfile (loadedConfig resolved quiet) = inl scw.Inline
  /\ accessKeys quiet uuid = inr (Errorf "denied")
  /\ Run resolved @ quiet ~>
       ((EmptyText,
         Some (CliError (Errorf "denied")
                 "Failed to retrieve Access Key for the given Secret Key.")),
        setDisk (Some firstSaved) [] quiet,
        [Ob LoadConfig (inr (Errorf "config file not found"));
         Ob GetConfigPath "/home/u/.config/scw/config.yaml";
         Ob (Printf (CreatingNewConfig "/home/u/.config/scw/config.yaml")) tt;
         Ob (Save firstSaved) None;
         Ob (GetAccessKey uuid) (inr (Errorf "denied"));
         Ob GetConfigPath "/home/u/.config/scw/config.yaml";
         Ob (Printf (ConfigSaved "/home/u/.config/scw/config.yaml" firstSaved)) tt])
  /\ disk (setDisk (Some firstSaved) [] quiet) = Some firstSaved
  /\ scw.SecretKey (scw.InlineProfile firstSaved) = Some uuid
  /\ scw.DefaultZone (scw.InlineProfile firstSaved) = Some "fr-par-1"
  /\ scw.DefaultRegion (scw.InlineProfile firstSaved) = Some "fr-par"
  /\ scw.DefaultOrganizationID (scw.InlineProfile firstSaved) = Some organization1.
Proof.
  split; [reflexivity|]. split; [reflexivity|].
  pose proof (@C4_access_key_failure quiet resolved scw.Inline (Errorf "denied")
                eq_refl eq_refl eq_refl) as H.
  split; [exact (proj1 H)|]. split; [reflexivity|]. repeat split.
Defined.

(** The whole command when every answer is at hand: no config file, the
    secret key, the zone and the usage flag on the command line, one
    organization, an access key granted.  The closure fills in the region
    and the organization; [Run] writes the config twice. *)
Example given_PreValidateFunc :
  PreValidateFunc givenArgs @ granting ~>
    ((resolved, None), granting,
     opening ++ [Ob (GetOrganizationsIds uuid) (inl [organization1])]).
Proof. exists 20%nat. reflexivity. Qed.

Example given_Run :
  Run resolved @ granting ~>
    ((SuccessResult, None), setDisk (Some withAccessKey) [] granting,
     [Ob LoadConfig (inr (Errorf "config file not found"));
      Ob GetConfigPath "/home/u/.config/scw/config.yaml";
      Ob (Printf (CreatingNewConfig "/home/u/.config/scw/config.yaml")) tt;
      Ob (Save firstSaved) None;
      Ob (GetAccessKey uuid) (inl "SCWXXXXXXXXXXXXXXXXX");
      Ob (Save withAccessKey) None]).
Proof. exists 20%nat. reflexivity. Qed.

(** ** Runs taken apart *)

Section RunInversion.

Context {W : Type} (reply : forall X : Type, initE X -> W -> X * W).

Lemma run_Ret_inv {R : Type} (fuel : nat) (r r' : R) (w w' : W) (tr : trace) :
  run reply fuel (Ret r) w = Some (r', w', tr) -> r' = r /\ w' = w /\ tr = [].
Proof.
  destruct fuel as [|fuel]; [discriminate|].
  rewrite run_S. simpl. intros H. inversion H. auto.
Qed.

Lemma run_call_inv {X : Type} (fuel : nat) (e : initE X) (x : X) (w w' : W) (tr : trace) :
  run reply fuel (call e) w = Some (x, w', tr) ->
  reply e w = (x, w') /\ tr = [Ob e x].
Proof.
  destruct fuel as [|fuel]; [discriminate|].
  rewrite run_S. simpl. destruct (reply e w) as [y w1].
  destruct (run reply fuel (Ret y) w1) as [[[a w2] tr']|] eqn:E; [|discriminate].
  apply run_Ret_inv in E. destruct E as (-> & -> & ->).
  intros H. inversion H. auto.
Qed.

(** A run of [t] followed by [k] is a run of [t] and a run of [k]. *)
Lemma run_bind_inv {A R : Type} (k : A -> itree initE R) (fuel : nat) :
  forall (t : itree initE A) (w w2 : W) (r : R) (tr : trace),
    run reply fuel (ITree.bind t k) w = Some (r, w2, tr) ->
    exists (x : A) (w1 : W) (tr1 tr2 : trace),
      run reply fuel t w = Some (x, w1, tr1)
      /\ run reply fuel (k x) w1 = Some (r, w2, tr2)
      /\ tr = tr1 ++ tr2.
Proof.
  induction fuel as [|fuel IH]; intros t w w2 r tr H; [discriminate|].
  rewrite run_S, observe_bind_node in H. rewrite (run_S reply fuel t).
  destruct (observe t) as [a | t' | X e h].
  - exists a, w, [], tr. repeat split. rewrite run_S. exact H.
  - apply IH in H. destruct H as (x & w1 & tr1 & tr2 & Ht & Hk & ->).
    exists x, w1, tr1, tr2. repeat split; [exact Ht|].
    pose proof (run_more reply _ _ _ Hk 1) as Hk'.
    rewrite Nat.add_comm in Hk'. exact Hk'.
  - destruct (reply e w) as [y w'].
    destruct (run reply fuel (ITree.bind (h y) k) w') as [[[a w''] tr']|] eqn:E;
      [|discriminate].
    inversion H; subst. apply IH in E.
    destruct E as (x & w1 & tr1 & tr2 & Ht & Hk & ->).
    exists x, w1, (Ob e y :: tr1), tr2. rewrite Ht. repeat split.
    pose proof (run_more reply _ _ _ Hk 1) as Hk'.
    rewrite Nat.add_comm in Hk'. exact Hk'.
Qed.

(** A run of a loop is a run of its body and then, when the body goes
    round again, a run of the loop on less fuel. *)
Lemma run_iter_inv {I R : Type} (body : I -> itree initE (I + R)) (fuel : nat)
      (i : I) (w w2 : W) (r : R) (tr : trace) :
  run reply fuel (ITree.iter body i) w = Some (r, w2, tr) ->
  exists (x : I + R) (w1 : W) (tr1 tr2 : trace),
    run reply fuel (body i) w = Some (x, w1, tr1)
    /\ tr = tr1 ++ tr2
    /\ match x with
       | inr r' => r' = r /\ w1 = w2 /\ tr2 = []
       | inl i' =>
           exists fuel', fuel' < fuel
                         /\ run reply fuel' (ITree.iter body i') w1 = Some (r, w2, tr2)
       end.
Proof.
  intros H.
  assert (H' : run reply fuel
                 (ITree.bind (body i) (fun lr => match lr with
                                                 | inl l => Tau (ITree.iter body l)
                                                 | inr r => Ret r
                                                 end)) w = Some (r, w2, tr)).
  { destruct fuel as [|fuel]; [discriminate|]. rewrite run_S in H |- *. exact H. }
  apply run_bind_inv in H'.
  destruct H' as (x & w1 & tr1 & tr2 & Hb & Hk & ->).
  exists x, w1, tr1, tr2. repeat split; [exact Hb|].
  destruct x as [i' | r'].
  - destruct fuel as [|fuel]; [discriminate|].
    exists fuel. split; [lia|]. rewrite run_S in Hk. exact Hk.
  - apply run_Ret_inv in Hk. destruct Hk as (-> & -> & ->). auto.
Qed.

(** A property of the world that every call of a run keeps is kept by the
    run. *)
Lemma run_keeps (keep : W -> W -> Prop) (allowed : Obs -> bool) {R : Type} :
  (forall w, keep w w) ->
  (forall w1 w2 w3, keep w1 w2 -> keep w2 w3 -> keep w1 w3) ->
  (forall (X : Type) (e : initE X) (w : W),
      allowed (Ob e (fst (reply e w))) = true -> keep w (snd (reply e w))) ->
  forall (fuel : nat) (t : itree initE R) (w w' : W) (r : R) (tr : trace),
    run reply fuel t w = Some (r, w', tr) ->
    forallb allowed tr = true ->
    keep w w'.
Proof.
  intros Hrefl Htrans Hstep.
  induction fuel as [|fuel IH]; intros t w w' r tr H Hall; [discriminate|].
  rewrite run_S in H. destruct (observe t) as [a | t' | X e h].
  - inversion H; subst. apply Hrefl.
  - eapply IH; eauto.
  - pose proof (Hstep X e w) as Hs. destruct (reply e w) as [y w1].
    destruct (run reply fuel (h y) w1) as [[[a w''] tr']|] eqn:E; [|discriminate].
    inversion H; subst. simpl in Hall. apply andb_prop in Hall.
    destruct Hall as [Ha Hall].
    apply Htrans with (w2 := w1); [apply Hs; exact Ha|].
    eapply IH; eauto.
Qed.

End RunInversion.

(** The rules of [never]. *)

Lemma never_Ret (bad : Obs -> bool) {R : Type} (r : R) : never bad (Ret r).
Proof.
  intros W reply w [[r' w'] tr] [fuel H].
  apply run_Ret_inv in H. destruct H as (_ & _ & ->). reflexivity.
Qed.

Lemma never_call (bad : Obs -> bool) {X : Type} (e : initE X) :
  (forall x, bad (Ob e x) = false) -> never bad (call e).
Proof.
  intros Hbad W reply w [[x w'] tr] [fuel H].
  apply run_call_inv in H. destruct H as (_ & ->). simpl.
  rewrite Hbad. reflexivity.
Qed.

Lemma never_bind (bad : Obs -> bool) {A R : Type} (t : itree initE A)
      (k : A -> itree initE R) :
  never bad t -> (forall x, never bad (k x)) -> never bad (ITree.bind t k).
Proof.
  intros Ht Hk W reply w [[r w2] tr] [fuel H].
  apply run_bind_inv in H. destruct H as (x & w1 & tr1 & tr2 & H1 & H2 & ->).
  simpl. rewrite existsb_app.
  pose proof (Ht W reply w (x, w1, tr1) (ex_intro _ fuel H1)) as E1.
  pose proof (Hk x W reply w1 (r, w2, tr2) (ex_intro _ fuel H2)) as E2.
  simpl in E1, E2. rewrite E1, E2. reflexivity.
Qed.

Lemma never_iter (bad : Obs -> bool) {I R : Type} (body : I -> itree initE (I + R)) :
  (forall i, never bad (body i)) -> forall i, never bad (ITree.iter body i).
Proof.
  intros Hbody i W reply w [[r w2] tr] [fuel H]. simpl.
  revert i w tr H.
  induction fuel as [fuel IH] using lt_wf_ind. intros i w tr H.
  apply run_iter_inv in H.
  destruct H as (x & w1 & tr1 & tr2 & Hb & -> & Hx).
  rewrite existsb_app.
  pose proof (Hbody i W reply w (x, w1, tr1) (ex_intro _ fuel Hb)) as E1.
  simpl in E1. rewrite E1. simpl.
  destruct x as [i' | r'].
  - destruct Hx as (fuel' & Hlt & Hloop). exact (IH fuel' Hlt i' w1 tr2 Hloop).
  - destruct Hx as (_ & _ & ->). reflexivity.
Qed.

(** ** The login loop, any number of rounds *)

Lemma setLines_same (w : World) (rest : list (result string)) :
  lines w = rest -> setLines rest w = w.
Proof. intros <-. destruct w; reflexivity. Qed.

Lemma lastRequest_Email (rounds : list (account.Token * string)) :
  forall req, account.Email (lastRequest req rounds) = account.Email req.
Proof.
  unfold lastRequest. induction rounds as [|[t code] more IH]; intros req; simpl;
    [reflexivity|]. rewrite IH. reflexivity.
Qed.

Lemma lastRequest_Password (rounds : list (account.Token * string)) :
  forall req, account.Password (lastRequest req rounds) = account.Password req.
Proof.
  unfold lastRequest. induction rounds as [|[t code] more IH]; intros req; simpl;
    [reflexivity|]. rewrite IH. reflexivity.
Qed.

Lemma last_cons_default {A : Type} (l : list A) :
  forall a d d', last (a :: l) d = last (a :: l) d'.
Proof.
  induction l as [|b l IH]; intros a d d'; [reflexivity|].
  change (last (b :: l) d = last (b :: l) d'). apply IH.
Qed.

Lemma lastRequest_TwoFactorToken (rounds : list (account.Token * string)) :
  forall req,
    account.TwoFactorToken (lastRequest req rounds)
    = last (map snd rounds) (account.TwoFactorToken req).
Proof.
  unfold lastRequest. induction rounds as [|[t code] more IH]; intros req;
    [reflexivity|].
  simpl fold_left. rewrite IH.
  destruct more as [|[t' code'] more']; [reflexivity|].
  change (last (code' :: map snd more')
               (account.TwoFactorToken (account.setTwoFactorToken code req))
          = last (code' :: map snd more') (account.TwoFactorToken req)).
  apply last_cons_default.
Qed.

Lemma roundCalls_logins (rounds : list (account.Token * string)) :
  forall req,
    length (filter isLogin (roundCalls req rounds)) = length rounds
    /\ length (filter isCodePrompt (roundCalls req rounds)) = length rounds.
Proof.
  induction rounds as [|[t code] more IH]; intros req; simpl; [auto|].
  destruct (IH (account.setTwoFactorToken code req)) as [H1 H2].
  rewrite H1, H2. auto.
Qed.

Section LoginLoop.

Context {sdk : SDK}.

(** The loop goes through the rounds and is then where it would be had it
    started with the request those rounds leave. *)
Lemma loop_rounds (rounds : list (account.Token * string)) :
  forall (req : account.LoginRequest) (w w2 : World)
         (after : list (result (account.Token * bool))) (rest : list (result string))
         (r : result string) (tr : trace),
    logins w = roundReplies rounds ++ after ->
    lines w = roundCodes rounds ++ rest ->
    ITree.iter loginTurn (lastRequest req rounds) @ setLogins after (setLines rest w)
      ~> (r, w2, tr) ->
    ITree.iter loginTurn req @ w ~> (r, w2, roundCalls req rounds ++ tr).
Proof.
  induction rounds as [|[t code] more IH]; intros req w w2 after rest r tr Hs Hl Hnext.
  - simpl in *. rewrite (setLines_same w Hl) in Hnext.
    assert (Hw : setLogins after w = w) by (destruct w; simpl in *; subst; reflexivity).
    rewrite Hw in Hnext. exact Hnext.
  - change (roundCalls req ((t, code) :: more) ++ tr)
      with ([Ob (Login req) (inl (t, true));
             Ob (PromptString "Enter your 2FA code") (inl code)]
            ++ (roundCalls (account.setTwoFactorToken code req) more ++ tr)).
    apply returns_iter_again
      with (i' := account.setTwoFactorToken code req)
           (w1 := setLines (roundCodes more ++ rest)
                    (setLogins (roundReplies more ++ after) w)).
    + apply loginTurn_code; [exact Hs | exact Hl].
    + apply IH with (after := after) (rest := rest); [reflexivity | reflexivity |].
      exact Hnext.
Qed.

Lemma loop_final (req : account.LoginRequest) (w : World)
      (final : result (account.Token * bool))
      (more : list (result (account.Token * bool))) :
  logins w = final :: more ->
  (forall t, final <> inl (t, true)) ->
  ITree.iter loginTurn req @ w ~>
    (loginOutcome final, setLogins more w, [Ob (Login req) final]).
Proof.
  intros Hs Hfinal. apply returns_iter_done.
  destruct final as [[t [|]] | err].
  - exfalso. exact (Hfinal t eq_refl).
  - apply loginTurn_done. exact Hs.
  - apply loginTurn_error. exact Hs.
Qed.

(** An email, a password, [rounds] and a last reply that asks for no code. *)
Lemma promptSecretKey_rounds (w : World) (email password : string)
      (rounds : list (account.Token * string)) (final : result (account.Token * bool))
      (rest : list (result string)) (more : list (result (account.Token * bool))) :
  IsEmail email = true ->
  lines w = inl email :: inl password :: roundCodes rounds ++ rest ->
  logins w = roundReplies rounds ++ final :: more ->
  (forall t, final <> inl (t, true)) ->
  let req := firstLogin w email password in
  promptSecretKey @ w ~>
    (loginOutcome final, setLogins more (setLines rest w),
     [Ob (Readline secretKeyReadline) (inl email);
      Ob (PromptPassword "Enter your password") (inl password);
      Ob Hostname (hostname w);
      Ob (Getenv "USER") (env w "USER")]
     ++ roundCalls req rounds ++ [Ob (Login (lastRequest req rounds)) final]).
Proof.
  intros He Hl Hs Hfinal req.
  apply promptSecretKey_email with (rest := roundCodes rounds ++ rest);
    [exact Hl | exact He |].
  apply loop_rounds with (after := final :: more) (rest := rest);
    [exact Hs | reflexivity |].
  apply (loop_final (lastRequest req rounds)
           (setLogins (final :: more)
              (setLines rest (setLines (roundCodes rounds ++ rest) w))));
    [reflexivity | exact Hfinal].
Qed.

(** The service asks for a code and the prompt for it fails. *)
Lemma loop_no_code (req : account.LoginRequest) (w : World) (t : account.Token)
      (err : error) (more : list (result (account.Token * bool)))
      (rest : list (result string)) :
  logins w = inl (t, true) :: more ->
  lines w = inr err :: rest ->
  ITree.iter loginTurn req @ w ~>
    (inr err, setLines rest (setLogins more w),
     [Ob (Login req) (inl (t, true));
      Ob (PromptString "Enter your 2FA code") (inr err)]).
Proof.
  intros Hs Hl. apply returns_iter_done. unfold loginTurn.
  eapply returns_call_bind; [simpl; rewrite Hs; reflexivity|].
  eapply returns_call_bind; [simpl; apply readString_error; exact Hl|].
  apply returns_Ret.
Qed.

Lemma count_rounds (req : account.LoginRequest) (rounds : list (account.Token * string))
      (front back : trace) :
  length (filter isLogin (front ++ roundCalls req rounds ++ back))
  = (length (filter isLogin front) + length rounds + length (filter isLogin back))%nat
  /\ length (filter isCodePrompt (front ++ roundCalls req rounds ++ back))
     = (length (filter isCodePrompt front) + length rounds
        + length (filter isCodePrompt back))%nat.
Proof.
  rewrite !filter_app, !length_app.
  destruct (roundCalls_logins rounds req) as [H1 H2]. rewrite H1, H2. lia.
Qed.

(** X1: the login loop has no bound.  Whatever the number of rounds in which
    the service asks for a code and the user types one, [promptSecretKey]
    goes on: with n such rounds and then a reply that asks for no code it
    makes n + 1 login calls and n prompts for a code, and returns the secret
    key of the last reply.  The last request carries the email and the
    password that were typed and the code typed last; earlier codes are
    replaced, not accumulated. *)
Theorem X1_login_after_rounds (w : World) (email password : string)
        (rounds : list (account.Token * string)) (t : account.Token)
        (rest : list (result string)) (more : list (result (account.Token * bool))) :
  IsEmail email = true ->
  lines w = inl email :: inl password :: roundCodes rounds ++ rest ->
  logins w = roundReplies rounds ++ inl (t, false) :: more ->
  let req := firstLogin w email password in
  let tr :=
    [Ob (Readline secretKeyReadline) (inl email);
     Ob (PromptPassword "Enter your password") (inl password);
     Ob Hostname (hostname w);
     Ob (Getenv "USER") (env w "USER")]
    ++ roundCalls req rounds
    ++ [Ob (Login (lastRequest req rounds)) (inl (t, false))] in
  promptSecretKey @ w ~> (inl (account.SecretKey t), setLogins more (setLines rest w), tr)
  /\ length (filter isLogin tr) = S (length rounds)
  /\ length (filter isCodePrompt tr) = length rounds
  /\ account.Email (lastRequest req rounds) = email
  /\ account.Password (lastRequest req rounds) = password
  /\ account.TwoFactorToken (lastRequest req rounds) = last (map snd rounds) "".
Proof.
  intros He Hl Hs req tr.
  split; [|split; [|split; [|split; [|split]]]].
  - apply (@promptSecretKey_rounds w email password rounds (inl (t, false)) rest
             more He Hl Hs).
    intros t' H. discriminate.
  - unfold tr. destruct (count_rounds req rounds
      [Ob (Readline secretKeyReadline) (inl email);
       Ob (PromptPassword "Enter your password") (inl password);
       Ob Hostname (hostname w);
       Ob (Getenv "USER") (env w "USER")]
      [Ob (Login (lastRequest req rounds)) (inl (t, false))]) as [H _].
    rewrite H. simpl. lia.
  - unfold tr. destruct (count_rounds req rounds
      [Ob (Readline secretKeyReadline) (inl email);
       Ob (PromptPassword "Enter your password") (inl password);
       Ob Hostname (hostname w);
       Ob (Getenv "USER") (env w "USER")]
      [Ob (Login (lastRequest req rounds)) (inl (t, false))]) as [_ H].
    rewrite H. simpl. lia.
  - apply lastRequest_Email.
  - apply lastRequest_Password.
  - apply lastRequest_TwoFactorToken.
Qed.

(** X2: an error of the login call ends [promptSecretKey] at once, in the
    first round or after any number of rounds with a code: the error is
    returned as it is, the failed call is the last call, and no code is
    asked for after it. *)
Theorem X2_login_error_after_rounds (w : World) (email password : string)
        (rounds : list (account.Token * string)) (err : error)
        (rest : list (result string)) (more : list (result (account.Token * bool))) :
  IsEmail email = true ->
  lines w = inl email :: inl password :: roundCodes rounds ++ rest ->
  logins w = roundReplies rounds ++ inr err :: more ->
  let req := firstLogin w email password in
  let tr :=
    [Ob (Readline secretKeyReadline) (inl email);
     Ob (PromptPassword "Enter your password") (inl password);
     Ob Hostname (hostname w);
     Ob (Getenv "USER") (env w "USER")]
    ++ roundCalls req rounds
    ++ [Ob (Login (lastRequest req rounds)) (inr err)] in
  promptSecretKey @ w ~> (inr err, setLogins more (setLines rest w), tr)
  /\ length (filter isLogin tr) = S (length rounds)
  /\ length (filter isCodePrompt tr) = length rounds.
Proof.
  intros He Hl Hs req tr.
  split; [|split].
  - apply (@promptSecretKey_rounds w email password rounds (inr err) rest more
             He Hl Hs).
    intros t' H. discriminate.
  - unfold tr. destruct (count_rounds req rounds
      [Ob (Readline secretKeyReadline) (inl email);
       Ob (PromptPassword "Enter your password") (inl password);
       Ob Hostname (hostname w);
       Ob (Getenv "USER") (env w "USER")]
      [Ob (Login (lastRequest req rounds)) (inr err)]) as [H _].
    rewrite H. simpl. lia.
  - unfold tr. destruct (count_rounds req rounds
      [Ob (Readline secretKeyReadline) (inl email);
       Ob (PromptPassword "Enter your password") (inl password);
       Ob Hostname (hostname w);
       Ob (Getenv "USER") (env w "USER")]
      [Ob (Login (lastRequest req rounds)) (inr err)]) as [_ H].
    rewrite H. simpl. lia.
Qed.

(** X3: when the prompt for the 2FA code fails, in the first round or
    after any number of rounds, [promptSecretKey] returns the error of the
    prompt; the prompt is its last call, and no login is attempted
    after it. *)
Theorem X3_code_prompt_error (w : World) (email password : string)
        (rounds : list (account.Token * string)) (t : account.Token) (err : error)
        (rest : list (result string)) (more : list (result (account.Token * bool))) :
  IsEmail email = true ->
  lines w = inl email :: inl password :: roundCodes rounds ++ inr err :: rest ->
  logins w = roundReplies rounds ++ inl (t, true) :: more ->
  let req := firstLogin w email password in
  let tr :=
    [Ob (Readline secretKeyReadline) (inl email);
     Ob (PromptPassword "Enter your password") (inl password);
     Ob Hostname (hostname w);
     Ob (Getenv "USER") (env w "USER")]
    ++ roundCalls req rounds
    ++ [Ob (Login (lastRequest req rounds)) (inl (t, true));
        Ob (PromptString "Enter your 2FA code") (inr err)] in
  promptSecretKey @ w ~> (inr err, setLogins more (setLines rest w), tr)
  /\ length (filter isLogin tr) = S (length rounds).
Proof.
  intros He Hl Hs req tr. split.
  - apply promptSecretKey_email with (rest := roundCodes rounds ++ inr err :: rest);
      [exact Hl | exact He |].
    apply loop_rounds with (after := inl (t, true) :: more) (rest := inr err :: rest);
      [exact Hs | reflexivity |].
    apply (loop_no_code (lastRequest req rounds)
             (setLogins (inl (t, true) :: more)
                (setLines (inr err :: rest)
                   (setLines (roundCodes rounds ++ inr err :: rest) w))));
      reflexivity.
  - unfold tr. destruct (count_rounds req rounds
      [Ob (Readline secretKeyReadline) (inl email);
       Ob (PromptPassword "Enter your password") (inl password);
       Ob Hostname (hostname w);
       Ob (Getenv "USER") (env w "USER")]
      [Ob (Login (lastRequest req rounds)) (inl (t, true));
       Ob (PromptString "Enter your 2FA code") (inr err)]) as [H _].
    rewrite H. simpl. lia.
Qed.

(** X5: when the password prompt fails, [promptSecretKey] returns the
    error of the prompt and the account service is not called. *)
Theorem X5_password_prompt_error (w : World) (email : string) (err : error)
        (rest : list (result string)) :
  IsEmail email = true ->
  lines w = inl email :: inr err :: rest ->
  let tr :=
    [Ob (Readline secretKeyReadline) (inl email);
     Ob (PromptPassword "Enter your password") (inr err)] in
  promptSecretKey @ w ~> (inr err, setLines rest w, tr)
  /\ filter isAccountCall tr = [].
Proof.
  intros He Hl tr. split; [|reflexivity].
  unfold promptSecretKey.
  eapply returns_call_bind.
  { simpl. apply readString_line; [exact Hl | apply secretKeyValidateFunc_email; exact He]. }
  unfold classify. rewrite He.
  eapply returns_call_bind.
  { simpl. apply readString_error; reflexivity. }
  apply returns_Ret.
Qed.

(** X6: when the secret-key prompt itself fails, [promptSecretKey] returns
    its error and makes no other call. *)
Theorem X6_readline_error (w : World) (err : error) (rest : list (result string)) :
  lines w = inr err :: rest ->
  promptSecretKey @ w ~>
    (inr err, setLines rest w, [Ob (Readline secretKeyReadline) (inr err)]).
Proof.
  intros Hl. unfold promptSecretKey.
  eapply returns_call_bind; [simpl; apply readString_error; exact Hl|].
  apply returns_Ret.
Qed.

(** X7: a failure of [os.Hostname] does not stop the login: its error is
    dropped and the description of the request ends with an empty host
    name. *)
Theorem X7_hostname_error_ignored (w : World) (email password : string) (err : error)
        (t : account.Token) (rest : list (result string))
        (more : list (result (account.Token * bool))) :
  IsEmail email = true ->
  hostname w = inr err ->
  lines w = inl email :: inl password :: rest ->
  logins w = inl (t, false) :: more ->
  let req :=
    {| account.Email := email; account.Password := password;
       account.Description := "scw-cli " ++ env w "USER" ++ "@";
       account.TwoFactorToken := "" |} in
  promptSecretKey @ w ~>
    (inl (account.SecretKey t), setLogins more (setLines rest w),
     [Ob (Readline secretKeyReadline) (inl email);
      Ob (PromptPassword "Enter your password") (inl password);
      Ob Hostname (inr err);
      Ob (Getenv "USER") (env w "USER");
      Ob (Login req) (inl (t, false))]).
Proof.
  intros He Hh Hl Hs req.
  pose proof (@promptSecretKey_login sdk w email password rest t more Hl Hs He) as H.
  unfold firstLogin in H. rewrite Hh in H. exact H.
Qed.

End LoginLoop.

(** ** Where a returned key comes from *)

Section KeyOrigin.

Context {sdk : SDK} {W : Type} (reply : forall X : Type, initE X -> W -> X * W).

(** A turn of the loop leaves with a key only on a reply that asks for no
    code, the only call of that turn. *)
Lemma loginTurn_key (fuel : nat) (req : account.LoginRequest) (w w1 : W)
      (sk : string) (tr : trace) :
  run reply fuel (loginTurn req) w = Some (inr (inl sk), w1, tr) ->
  exists t, tr = [Ob (Login req) (inl (t, false))] /\ sk = account.SecretKey t.
Proof.
  unfold loginTurn. intros H.
  apply run_bind_inv in H. destruct H as (r & w' & tr1 & tr2 & Hc & Hk & ->).
  apply run_call_inv in Hc. destruct Hc as [_ ->].
  destruct r as [[t [|]] | err]; simpl in Hk.
  - apply run_bind_inv in Hk. destruct Hk as (c & w'' & tr3 & tr4 & Hc & Hk & ->).
    destruct c as [code | err]; apply run_Ret_inv in Hk;
      destruct Hk as (Hx & _ & _); discriminate.
  - apply run_Ret_inv in Hk. destruct Hk as (Hx & _ & ->).
    inversion Hx; subst. exists t. auto.
  - apply run_Ret_inv in Hk. destruct Hk as (Hx & _ & _). discriminate.
Qed.

Lemma loginTurn_again (fuel : nat) (req req' : account.LoginRequest) (w w1 : W)
      (tr : trace) :
  run reply fuel (loginTurn req) w = Some (inl req', w1, tr) ->
  account.Email req' = account.Email req
  /\ account.Password req' = account.Password req.
Proof.
  unfold loginTurn. intros H.
  apply run_bind_inv in H. destruct H as (r & w' & tr1 & tr2 & Hc & Hk & ->).
  destruct r as [[t [|]] | err]; simpl in Hk.
  - apply run_bind_inv in Hk. destruct Hk as (c & w'' & tr3 & tr4 & _ & Hk & ->).
    destruct c as [code | err]; apply run_Ret_inv in Hk;
      destruct Hk as (Hx & _ & _); [|discriminate].
    inversion Hx; subst. auto.
  - apply run_Ret_inv in Hk. destruct Hk as (Hx & _ & _). discriminate.
  - apply run_Ret_inv in Hk. destruct Hk as (Hx & _ & _). discriminate.
Qed.

(** The loop returns a key only as the key of the reply to its last call,
    a login with the email and the password it started with. *)
Lemma loop_key (fuel : nat) :
  forall (req : account.LoginRequest) (w w' : W) (sk : string) (tr : trace),
    run reply fuel (ITree.iter loginTurn req) w = Some (inl sk, w', tr) ->
    exists (front : trace) (req' : account.LoginRequest) (t : account.Token),
      tr = front ++ [Ob (Login req') (inl (t, false))]
      /\ sk = account.SecretKey t
      /\ account.Email req' = account.Email req
      /\ account.Password req' = account.Password req.
Proof.
  induction fuel as [fuel IH] using lt_wf_ind. intros req w w' sk tr H.
  apply run_iter_inv in H.
  destruct H as (x & w1 & tr1 & tr2 & Hb & -> & Hx).
  destruct x as [req1 | r].
  - destruct Hx as (fuel' & Hlt & Hloop).
    destruct (IH fuel' Hlt _ _ _ _ _ Hloop) as (front & req' & t & -> & Hsk & He & Hp).
    destruct (loginTurn_again _ _ _ Hb) as [He1 Hp1].
    exists (tr1 ++ front), req', t. rewrite app_assoc.
    repeat split; [exact Hsk | congruence | congruence].
  - destruct Hx as (-> & -> & ->).
    destruct (loginTurn_key _ _ _ Hb) as (t & -> & Hsk).
    exists [], req, t. auto.
Qed.

(** X4: in any environment, a secret key that [promptSecretKey] returns is
    either the line that was typed, classified as a UUID, with the prompt
    as the only call, or the secret key of the reply to the last call, a
    login with the typed line as email that asked for no code.  No other
    value is ever returned as a key. *)
Theorem X4_key_origin (w w' : W) (sk : string) (tr : trace) :
  returns reply promptSecretKey w (inl sk, w', tr) ->
  (tr = [Ob (Readline secretKeyReadline) (inl sk)] /\ classify sk = ClassUUID)
  \/ (exists (front : trace) (req : account.LoginRequest) (t : account.Token),
        tr = front ++ [Ob (Login req) (inl (t, false))]
        /\ sk = account.SecretKey t
        /\ hd_error tr = Some (Ob (Readline secretKeyReadline) (inl (account.Email req)))).
Proof.
  intros [fuel H]. unfold promptSecretKey in H.
  apply run_bind_inv in H. destruct H as (l & w1 & tr1 & tr2 & Hc & Hk & ->).
  apply run_call_inv in Hc. destruct Hc as [_ ->].
  destruct l as [line | err].
  2:{ apply run_Ret_inv in Hk. destruct Hk as (Hx & _ & _). discriminate. }
  destruct (classify line) eqn:Hclass.
  - right.
    apply run_bind_inv in Hk. destruct Hk as (p & w2 & tr3 & tr4 & Hc & Hk & ->).
    apply run_call_inv in Hc. destruct Hc as [_ ->].
    destruct p as [password | err].
    2:{ apply run_Ret_inv in Hk. destruct Hk as (Hx & _ & _). discriminate. }
    apply run_bind_inv in Hk. destruct Hk as (h & w3 & tr5 & tr6 & Hc & Hk & ->).
    apply run_call_inv in Hc. destruct Hc as [_ ->].
    apply run_bind_inv in Hk. destruct Hk as (u & w4 & tr7 & tr8 & Hc & Hk & ->).
    apply run_call_inv in Hc. destruct Hc as [_ ->].
    apply loop_key in Hk.
    destruct Hk as (front & req & t & -> & Hsk & He & _). simpl in He.
    exists ([Ob (Readline secretKeyReadline) (inl line)]
            ++ [Ob (PromptPassword "Enter your password") (inl password)]
            ++ [Ob Hostname h] ++ [Ob (Getenv "USER") u] ++ front), req, t.
    split; [simpl; reflexivity|].
    split; [exact Hsk|]. simpl. rewrite He. reflexivity.
  - left. apply run_Ret_inv in Hk. destruct Hk as (Hx & _ & ->).
    inversion Hx; subst. auto.
  - apply run_Ret_inv in Hk. destruct Hk as (Hx & _ & _). discriminate.
Qed.

End KeyOrigin.

(** ** What the closure leaves to Run, and Run to the closure *)

Ltac never_step :=
  first
    [ apply never_Ret
    | apply never_call; intros; reflexivity
    | apply never_iter; intros
    | apply never_bind; [|intros]
    | match goal with
      | |- never _ (match ?x with _ => _ end) => destruct x
      | |- never _ (let _ := _ in _) => cbv zeta
      end ].

Section Never.

Context {sdk : SDK}.

Lemma never_promptSecretKey : never writesOrEnriches promptSecretKey.
Proof. unfold promptSecretKey, loginTurn. repeat never_step. Qed.

Lemma never_getOrganizationID (secretKey : string) :
  never writesOrEnriches (getOrganizationID secretKey).
Proof.
  unfold getOrganizationID, promptOrganizationID. repeat never_step.
Qed.

Lemma never_andThen (bad : Obs -> bool) (first next : step) :
  (forall args, never bad (first args)) ->
  (forall args, never bad (next args)) ->
  forall args, never bad ((first +> next) args).
Proof.
  intros H1 H2 args. unfold andThen.
  apply never_bind; [apply H1|]. intros [args' [err|]]; [apply never_Ret | apply H2].
Qed.

Lemma PreValidateFunc_never_writes (args : InitArgs) :
  never writesOrEnriches (PreValidateFunc args).
Proof.
  revert args. unfold PreValidateFunc, resolveZone.
  repeat apply never_andThen; intros args.
  - unfold showBanner. repeat never_step.
  - unfold confirmOverride. repeat never_step.
  - unfold askSecretKey. destruct (SecretKey args =? ""); [|apply never_Ret].
    apply never_bind; [apply never_promptSecretKey|].
    intros [k|e]; apply never_Ret.
  - unfold askZone. repeat never_step.
  - unfold deduceRegion. repeat never_step.
  - unfold askOrganizationID. destruct (OrganizationID args =? ""); [|apply never_Ret].
    apply never_bind; [apply never_getOrganizationID|].
    intros [k|e]; apply never_Ret.
  - unfold askSendUsage. repeat never_step.
Qed.

(** X8: in any environment and for any arguments, [PreValidateFunc] never
    writes the config and never asks for the access key, however many
    rounds the login takes: both are left to [Run]. *)
Theorem X8_PreValidateFunc_never_writes (args : InitArgs) :
  never writesOrEnriches (PreValidateFunc args).
Proof. apply PreValidateFunc_never_writes. Qed.

End Never.


(** The scripted config file changes on a write only. *)
Lemma scripted_keeps_disk (X : Type) (e : initE X) (w : World) :
  negb (writesOrEnriches (Ob e (fst (scripted e w)))) = true ->
  disk (snd (scripted e w)) = disk w /\ saves (snd (scripted e w)) = saves w.
Proof.
  destruct e; unfold writesOrEnriches; simpl; intros H; auto; try discriminate H;
    try (unfold readString; destruct (readLine _ _ (lines w)); simpl; auto).
  - destruct (confirms w); simpl; auto.
  - destruct (logins w); simpl; auto.
  - destruct (disk w) eqn:E; simpl; auto.
Qed.

Lemma existsb_forallb_negb {A : Type} (f : A -> bool) (l : list A) :
  existsb f l = false -> forallb (fun a => negb (f a)) l = true.
Proof.
  induction l as [|a l IH]; simpl; [reflexivity|].
  intros H. apply orb_false_elim in H. destruct H as [Ha Hl].
  rewrite Ha, (IH Hl). reflexivity.
Qed.

(** X9: whatever is typed and whatever the account service replies, a run
    of [PreValidateFunc] leaves the config file and the pending writes as
    they were, also when it ends in an error. *)
Theorem X9_PreValidateFunc_keeps_file {sdk : SDK} (args : InitArgs) (w w' : World)
        (out : InitArgs * option error) (tr : trace) :
  PreValidateFunc args @ w ~> (out, w', tr) ->
  disk w' = disk w /\ saves w' = saves w.
Proof.
  intros H.
  pose proof (@PreValidateFunc_never_writes sdk args World scripted w (out, w', tr) H)
    as Hnever.
  destruct H as [fuel H]. simpl in Hnever.
  apply (run_keeps scripted (fun w1 w2 => disk w2 = disk w1 /\ saves w2 = saves w1)
           (fun o => negb (writesOrEnriches o)))
    with (fuel := fuel) (t := PreValidateFunc args) (r := out) (tr := tr).
  - auto.
  - intros w1 w2 w3 [H1 H2] [H3 H4]. split; congruence.
  - intros X e w0 Ha. apply scripted_keeps_disk. exact Ha.
  - exact H.
  - apply existsb_forallb_negb. exact Hnever.
Qed.

(** The config file after a run of the closure is the one before it. *)
Lemma PreValidateFunc_keeps_disk {sdk : SDK} (args : InitArgs) (w w' : World)
      (out : InitArgs * option error) (tr : trace) :
  PreValidateFunc args @ w ~> (out, w', tr) -> disk w' = disk w.
Proof.
  intros H.
  pose proof (@PreValidateFunc_never_writes sdk args World scripted w (out, w', tr) H)
    as Hnever.
  destruct H as [fuel H]. simpl in Hnever.
  apply (run_keeps scripted (fun w1 w2 => disk w2 = disk w1)
           (fun o => negb (writesOrEnriches o)))
    with (fuel := fuel) (t := PreValidateFunc args) (r := out) (tr := tr).
  - reflexivity.
  - intros w1 w2 w3 H1 H2. congruence.
  - intros X e w0 Ha. apply scripted_keeps_disk. exact Ha.
  - exact H.
  - apply existsb_forallb_negb. exact Hnever.
Qed.

(** ** The closure, block by block *)

Section Blocks.

Context {sdk : SDK}.

Lemma PreValidateFunc_blocks :
  PreValidateFunc = chain showBanner (tl blocks).
Proof. reflexivity. Qed.

(** Once a chain has failed, more blocks change nothing. *)
Lemma chain_error (others : list step) :
  forall (first : step) (args a : InitArgs) (w w1 : World) (err : error) (tr : trace),
    first args @ w ~> ((a, Some err), w1, tr) ->
    chain first others args @ w ~> ((a, Some err), w1, tr).
Proof.
  induction others as [|next others IH]; intros first args a w w1 err tr H.
  - exact H.
  - simpl. apply IH. apply returns_andThen_error. exact H.
Qed.

Lemma chain_app (before : list step) :
  forall (first : step) (after : list step),
    chain first (before ++ after) = chain (chain first before) after.
Proof. intros first after. unfold chain. apply fold_left_app. Qed.

(** A block in front of a chain: the chain runs on what the block hands
    on, and its calls follow those of the block. *)
Lemma chain_after (others : list step) :
  forall (first next : step) (args a : InitArgs) (w w1 w2 : World)
         (out : InitArgs * option error) (tr1 tr2 : trace),
    first args @ w ~> ((a, None), w1, tr1) ->
    chain next others a @ w1 ~> (out, w2, tr2) ->
    chain (first +> next) others args @ w ~> (out, w2, tr1 ++ tr2).
Proof.
  induction others as [|last others IH] using rev_ind;
    intros first next args a w w1 w2 out tr1 tr2 Hfirst Hrest.
  - simpl in *. eapply returns_andThen; [exact Hfirst | exact Hrest].
  - rewrite chain_app in Hrest |- *. simpl in Hrest |- *.
    destruct Hrest as [fuel Hrun]. unfold andThen at 1 in Hrun.
    apply run_bind_inv in Hrun.
    destruct Hrun as ([a' [err|]] & w' & tra & trb & Hchain & Hlast & ->).
    + apply run_Ret_inv in Hlast. destruct Hlast as (-> & -> & ->).
      rewrite app_nil_r.
      apply returns_andThen_error.
      apply (IH first next args a w w1 w' (a', Some err) tr1 tra Hfirst).
      exists fuel. exact Hchain.
    + rewrite app_assoc.
      eapply returns_andThen.
      * apply (IH first next args a w w1 w' (a', None) tr1 tra Hfirst).
        exists fuel. exact Hchain.
      * exists fuel. exact Hlast.
Qed.

(** X11: the first error wins.  Split the blocks of the closure anywhere:
    when the blocks in front succeed and the block after them fails, the
    closure returns the error and the arguments of that block, and the
    blocks behind it make no call at all. *)
Theorem X11_first_error_wins (before after : list step) (block : step)
        (args a a' : InitArgs) (w w1 w2 : World) (err : error) (tr1 tr2 : trace) :
  tl blocks = before ++ block :: after ->
  chain showBanner before args @ w ~> ((a, None), w1, tr1) ->
  block a @ w1 ~> ((a', Some err), w2, tr2) ->
  PreValidateFunc args @ w ~> ((a', Some err), w2, tr1 ++ tr2).
Proof.
  intros Hsplit Hbefore Hblock.
  rewrite PreValidateFunc_blocks, Hsplit.
  rewrite chain_app. simpl.
  apply chain_error.
  eapply returns_andThen; [exact Hbefore | exact Hblock].
Qed.

(** The banner and the check for a config file when there is none. *)
Lemma banner_new (w : World) (args : InitArgs) :
  disk w = None ->
  (showBanner +> confirmOverride) args @ w ~> ((args, None), w, openingCalls w).
Proof.
  intros Hd. unfold openingCalls.
  change [Ob GetWidth (width w); Ob (Printf (banner w)) tt;
          Ob LoadConfig (inr (Errorf "config file not found"))]
    with ([Ob GetWidth (width w); Ob (Printf (banner w)) tt]
          ++ [Ob LoadConfig (inr (Errorf "config file not found"))]).
  eapply returns_andThen; [apply showBanner_returns|].
  apply confirmOverride_new. exact Hd.
Qed.

Lemma askSecretKey_literal (w : World) (args : InitArgs) (s : string)
      (rest : list (result string)) :
  SecretKey args = "" ->
  lines w = inl s :: rest ->
  IsEmail s = false ->
  IsUUID s = true ->
  askSecretKey args @ w ~>
    ((setSecretKey s args, None), setLines rest w,
     [Ob (Readline secretKeyReadline) (inl s)]).
Proof.
  intros Hk Hl He Hu. unfold askSecretKey. rewrite Hk. simpl.
  rewrite <- (app_nil_r [Ob (Readline secretKeyReadline) (inl s)]).
  eapply returns_bind.
  - apply promptSecretKey_literal; eassumption.
  - apply returns_Ret.
Qed.

(** The zone prompt: the typed line, or the default fr-par-1 for an empty
    line, once it passes the validator and [scw.ParseZone]. *)
Lemma askZone_prompt (w : World) (args : InitArgs) (typed : string) (z : scw.Zone)
      (rest : list (result string)) :
  Zone args = "" ->
  lines w = inl typed :: rest ->
  let line := if typed =? "" then "fr-par-1" else typed in
  IsZone line = true ->
  ParseZone line = inl z ->
  askZone args @ w ~>
    ((setZone z args, None), setLines rest w,
     [Ob (PromptStringWithConfig zonePrompt) (inl line)]).
Proof.
  intros Hz Hl line Hv Hp. unfold askZone. rewrite Hz. simpl.
  eapply returns_call_bind.
  - simpl. unfold readString. rewrite Hl. simpl. fold line.
    unfold zoneValidateFunc. rewrite Hv. reflexivity.
  - simpl. rewrite Hp. apply returns_Ret.
Qed.

Lemma deduceRegion_given (w : World) (args : InitArgs) :
  Region args <> "" ->
  deduceRegion args @ w ~> ((args, None), w, []).
Proof.
  intros Hr. unfold deduceRegion.
  apply String.eqb_neq in Hr. rewrite Hr. apply returns_Ret.
Qed.

Lemma askOrganizationID_given (w : World) (args : InitArgs) :
  OrganizationID args <> "" ->
  askOrganizationID args @ w ~> ((args, None), w, []).
Proof.
  intros Ho. unfold askOrganizationID.
  apply String.eqb_neq in Ho. rewrite Ho. apply returns_Ret.
Qed.

Lemma askOrganizationID_single (w : World) (args : InitArgs) (ID : string) :
  OrganizationID args = "" ->
  organizations w (SecretKey args) = inl [ID] ->
  askOrganizationID args @ w ~>
    ((setOrganizationID ID args, None), w,
     [Ob (GetOrganizationsIds (SecretKey args)) (inl [ID])]).
Proof.
  intros Ho Hq. unfold askOrganizationID, getOrganizationID. rewrite Ho. simpl.
  rewrite <- (app_nil_r [Ob (GetOrganizationsIds (SecretKey args)) (inl [ID])]).
  eapply returns_bind.
  - eapply returns_call_bind; [simpl; rewrite Hq; reflexivity|].
    simpl. apply returns_Ret.
  - apply returns_Ret.
Qed.

Lemma askSendUsage_given (w : World) (args : InitArgs) (b : bool) :
  SendUsage args = Some b ->
  askSendUsage args @ w ~> ((args, None), w, []).
Proof. intros Hu. unfold askSendUsage. rewrite Hu. apply returns_Ret. Qed.

Lemma askSendUsage_answer (w : World) (args : InitArgs) (b : bool)
      (more : list (result bool)) :
  SendUsage args = None ->
  confirms w = inl b :: more ->
  askSendUsage args @ w ~>
    ((setSendUsage (Some b) args, None), setConfirms more w,
     [Ob (Printf BlankLine) tt;
      Ob (Printf UsageNotice) tt;
      Ob (PromptBoolWithConfig sendUsagePrompt) (inl b)]).
Proof.
  intros Hu Hc. unfold askSendUsage. rewrite Hu.
  eapply returns_call_bind; [reflexivity|].
  eapply returns_call_bind; [reflexivity|].
  eapply returns_call_bind; [simpl; rewrite Hc; reflexivity|].
  apply returns_Ret.
Qed.

(** The blocks behind the confirmation when every argument is given. *)
Lemma given_rest (w w1 : World) (args : InitArgs) (b : bool) (tr : trace) :
  SecretKey args <> "" ->
  Zone args <> "" ->
  Region args <> "" ->
  OrganizationID args <> "" ->
  SendUsage args = Some b ->
  (showBanner +> confirmOverride) args @ w ~> ((args, None), w1, tr) ->
  PreValidateFunc args @ w ~> ((args, None), w1, tr).
Proof.
  intros Hk Hz Hr Ho Hu Hpre. unfold PreValidateFunc, resolveZone.
  rewrite <- (app_nil_r tr).
  eapply returns_andThen; [|apply (askSendUsage_given w1 args Hu)].
  rewrite <- (app_nil_r tr).
  eapply returns_andThen; [|apply askOrganizationID_given; exact Ho].
  rewrite <- (app_nil_r tr).
  eapply returns_andThen; [|apply deduceRegion_given; exact Hr].
  rewrite <- (app_nil_r tr).
  eapply returns_andThen; [|apply askZone_given; exact Hz].
  rewrite <- (app_nil_r tr).
  eapply returns_andThen; [exact Hpre|apply askSecretKey_given; exact Hk].
Qed.

(** X12: arguments given on the command line are not asked for.  With no
    config file and the secret key, the zone, the region, the organization
    and the usage flag all given, the closure returns the arguments as they
    are after the banner and the look for a config file: no prompt, no call
    to the account service, and a region that is given is kept whatever
    the zone. *)
Theorem X12_given_arguments_bypass (w : World) (args : InitArgs) (b : bool) :
  disk w = None ->
  SecretKey args <> "" ->
  Zone args <> "" ->
  Region args <> "" ->
  OrganizationID args <> "" ->
  SendUsage args = Some b ->
  PreValidateFunc args @ w ~> ((args, None), w, openingCalls w)
  /\ filter isPrompt (openingCalls w) = []
  /\ filter isAccountCall (openingCalls w) = [].
Proof.
  intros Hd Hk Hz Hr Ho Hu. split; [|split; reflexivity].
  apply (given_rest Hk Hz Hr Ho Hu). apply banner_new. exact Hd.
Qed.

(** X13: a config file exists and the user answers yes to the confirmation:
    the closure goes on with the blocks behind the confirmation (secret
    key, zone, region, organization, usage), on the arguments as they
    were, and returns what these blocks return, an error of theirs as
    well, their calls behind the confirmation; whatever that is, the file
    is still the old one: it is [Run] that overrides it. *)
Theorem X13_override_accepted (w w2 : World) (args : InitArgs) (config : scw.Config)
        (more : list (result bool)) (out : InitArgs * option error) (tr : trace) :
  disk w = Some config ->
  confirms w = inl true :: more ->
  (askSecretKey +> askZone +> deduceRegion +> askOrganizationID +> askSendUsage) args
    @ setConfirms more w ~> (out, w2, tr) ->
  PreValidateFunc args @ w ~>
    (out, w2,
     [Ob GetWidth (width w);
      Ob (Printf (banner w)) tt;
      Ob LoadConfig (inl config);
      Ob GetConfigPath (configPath w);
      Ob (Printf (CurrentConfig (configPath w) config)) tt;
      Ob (PromptBoolWithConfig overridePrompt) (inl true)] ++ tr)
  /\ disk w2 = Some config.
Proof.
  intros Hd Hc Hrest.
  assert (Hrun : PreValidateFunc args @ w ~>
                   (out, w2,
                    [Ob GetWidth (width w);
                     Ob (Printf (banner w)) tt;
                     Ob LoadConfig (inl config);
                     Ob GetConfigPath (configPath w);
                     Ob (Printf (CurrentConfig (configPath w) config)) tt;
                     Ob (PromptBoolWithConfig overridePrompt) (inl true)] ++ tr)).
  { change (PreValidateFunc args)
      with (chain ((showBanner +> confirmOverride) +> askSecretKey)
              [askZone; deduceRegion; askOrganizationID; askSendUsage] args).
    apply chain_after with (a := args) (w1 := setConfirms more w).
    - change [Ob GetWidth (width w); Ob (Printf (banner w)) tt;
              Ob LoadConfig (inl config); Ob GetConfigPath (configPath w);
              Ob (Printf (CurrentConfig (configPath w) config)) tt;
              Ob (PromptBoolWithConfig overridePrompt) (inl true)]
        with ([Ob GetWidth (width w); Ob (Printf (banner w)) tt]
              ++ [Ob LoadConfig (inl config); Ob GetConfigPath (configPath w);
                  Ob (Printf (CurrentConfig (configPath w) config)) tt;
                  Ob (PromptBoolWithConfig overridePrompt) (inl true)]).
      eapply returns_andThen; [apply showBanner_returns|].
      apply (confirmOverride_answer w args Hd Hc).
    - exact Hrest. }
  split; [exact Hrun|].
  apply PreValidateFunc_keeps_disk in Hrun. rewrite Hrun. exact Hd.
Qed.

(** X14: nothing on the command line and no config file.  The user types a
    secret key of the UUID shape and an empty line at the zone prompt; the
    account service knows one organization; the user answers the usage
    question.  The closure returns the typed key, the default zone
    fr-par-1 as [scw.ParseZone] reads it, the region of that zone, the one
    organization (asked for with the typed key, and not prompted) and the
    answer. *)
Theorem X14_interactive_resolution (w : World) (s ID : string) (z : scw.Zone)
        (r : scw.Region) (b : bool) (rest : list (result string))
        (more : list (result bool)) :
  disk w = None ->
  lines w = inl s :: inl "" :: rest ->
  confirms w = inl b :: more ->
  IsEmail s = false ->
  IsUUID s = true ->
  IsZone "fr-par-1" = true ->
  ParseZone "fr-par-1" = inl z ->
  ZoneRegion z = inl r ->
  organizations w s = inl [ID] ->
  PreValidateFunc noArgs @ w ~>
    (({| SecretKey := s; Region := r; Zone := z; OrganizationID := ID;
         SendUsage := Some b |}, None),
     setConfirms more (setLines rest w),
     openingCalls w
     ++ [Ob (Readline secretKeyReadline) (inl s);
         Ob (PromptStringWithConfig zonePrompt) (inl "fr-par-1");
         Ob (GetOrganizationsIds s) (inl [ID]);
         Ob (Printf BlankLine) tt;
         Ob (Printf UsageNotice) tt;
         Ob (PromptBoolWithConfig sendUsagePrompt) (inl b)]).
Proof.
  intros Hd Hl Hc He Hu Hz Hp Hr Hq.
  unfold PreValidateFunc, resolveZone.
  set (a1 := setSecretKey s noArgs).
  set (a2 := setZone z a1).
  set (a3 := setRegion r a2).
  set (a4 := setOrganizationID ID a3).
  set (w1 := setLines (inl "" :: rest) w).
  set (w2 := setLines rest w1).
  change (openingCalls w ++ ?l)
    with (((((openingCalls w ++ [Ob (Readline secretKeyReadline) (inl s)])
             ++ [Ob (PromptStringWithConfig zonePrompt) (inl "fr-par-1")])
            ++ [])
           ++ [Ob (GetOrganizationsIds s) (inl [ID])])
          ++ [Ob (Printf BlankLine) tt; Ob (Printf UsageNotice) tt;
              Ob (PromptBoolWithConfig sendUsagePrompt) (inl b)]).
  apply returns_andThen with (args' := a4) (w1 := w2).
  - apply returns_andThen with (args' := a3) (w1 := w2).
    + apply returns_andThen with (args' := a2) (w1 := w2).
      * apply returns_andThen with (args' := a1) (w1 := w1).
        -- apply returns_andThen with (args' := noArgs) (w1 := w).
           ++ apply banner_new. exact Hd.
           ++ apply askSecretKey_literal; [reflexivity | exact Hl | exact He | exact Hu].
        -- apply (@askZone_prompt w1 a1 "" z rest); [reflexivity | reflexivity | exact Hz | exact Hp].
      * pose proof (deduceRegion_returns w2 a2 eq_refl) as H.
        change (Zone a2) with z in H. rewrite Hr in H. exact H.
    + apply (@askOrganizationID_single w2 a3 ID); [reflexivity | exact Hq].
  - apply (@askSendUsage_answer w2 a4 b more); [reflexivity | exact Hc].
Qed.

(** X15: when the prompt for the organization fails, [getOrganizationID]
    returns the error of the prompt, also after a failed query: the error
    of the query is logged and it is the error of the prompt that is
    returned. *)
Theorem X15_organization_prompt_error (w : World) (secretKey : string)
        (found : result (list string)) (err : error) (rest : list (result string)) :
  organizations w secretKey = found ->
  (forall ID, found <> inl [ID]) ->
  lines w = inr err :: rest ->
  let IDs := valueOr [] found in
  let logged :=
    match found with
    | inr queryError => [Ob (Warningf queryError) tt]
    | inl _ => []
    end in
  getOrganizationID secretKey @ w ~>
    (inr err, setLines rest w,
     Ob (GetOrganizationsIds secretKey) found
       :: logged ++ [Ob (PromptStringWithConfig (organizationIDPrompt IDs)) (inr err)]).
Proof.
  intros Hq Hmany Hl IDs logged.
  assert (Hprompt : promptOrganizationID IDs @ w ~>
                      (inr err, setLines rest w,
                       [Ob (PromptStringWithConfig (organizationIDPrompt IDs)) (inr err)])).
  { unfold promptOrganizationID.
    eapply returns_call_bind; [simpl; apply readString_error; exact Hl|].
    apply returns_Ret. }
  unfold getOrganizationID.
  eapply returns_call_bind; [simpl; rewrite Hq; reflexivity|].
  destruct found as [found | queryError].
  - simpl app.
    assert (Hlen : (length found =? 1)%nat = false).
    { destruct found as [|a [|b l]]; try reflexivity.
      exfalso. exact (Hmany a eq_refl). }
    rewrite Hlen. simpl. exact Hprompt.
  - eapply returns_call_bind; [reflexivity|]. exact Hprompt.
Qed.

End Blocks.

(** ** Run, outcome by outcome *)

Lemma save_ok (w : World) (config : scw.Config) :
  hd None (saves w) = None ->
  scripted (Save config) w = (None, setDisk (Some config) (tl (saves w)) w).
Proof.
  intros H. simpl. destruct (saves w) as [|[e|] more]; simpl in *;
    try discriminate; reflexivity.
Qed.

Lemma save_error (w : World) (config : scw.Config) (err : error)
      (more : list (option error)) :
  saves w = Some err :: more ->
  scripted (Save config) w = (Some err, setDisk (disk w) more w).
Proof. intros H. simpl. rewrite H. reflexivity. Qed.

(** The run of [Run] up to the look for the active profile. *)
Lemma Run_load (w w2 : World) (args : InitArgs) (out : RunValue * option error)
      (tr : trace) :
  (let config := loadedConfig args w in
   match scw.GetActiveProfile config with
   | inr err => Ret (Nil, Some err)
   | inl profile =>
       let config := scw.assign profile (fillProfile args) config in
       s <- call (Save config) ;;
       match s with
       | Some err => Ret (Nil, Some err)
       | None =>
           a <- call (GetAccessKey (SecretKey args)) ;;
           match a with
           | inr err =>
               path <- call GetConfigPath ;;
               call (Printf (ConfigSaved path config)) ;;
               Ret (EmptyText, Some (CliError err accessKeyDetails))
           | inl accessKey =>
               let config := scw.assign profile (scw.setAccessKey accessKey) config in
               s <- call (Save config) ;;
               match s with
               | Some err => Ret (Nil, Some err)
               | None => Ret (SuccessResult, None)
               end
           end
       end
   end) @ w ~> (out, w2, tr) ->
  Run args @ w ~> (out, w2, loadCalls w ++ tr).
Proof.
  intros Hrest. unfold Run, loadCalls. unfold loadedConfig in Hrest. cbv zeta in Hrest.
  destruct (disk w) as [config|] eqn:Hd.
  - eapply returns_call_bind; [simpl; rewrite Hd; reflexivity|].
    match goal with
    | |- returns _ _ _ (_, _, ?t) => change t with ([] ++ t)
    end.
    eapply returns_bind; [apply returns_Ret|]. exact Hrest.
  - eapply returns_call_bind; [simpl; rewrite Hd; reflexivity|].
    match goal with
    | |- returns _ _ _ (_, _, ?a :: ?b :: ?t) => change (a :: b :: t) with ([a; b] ++ t)
    end.
    eapply returns_bind.
    + eapply returns_call_bind; [reflexivity|].
      eapply returns_call_bind; [reflexivity|].
      apply returns_Ret.
    + exact Hrest.
Qed.

Lemma Run_profile_error (w : World) (args : InitArgs) (err : error) :
  scw.GetActiveProfile (loadedConfig args w) = inr err ->
  Run args @ w ~> ((Nil, Some err), w, loadCalls w).
Proof.
  intros Hp. rewrite <- (app_nil_r (loadCalls w)).
  apply Run_load. cbv zeta. rewrite Hp. apply returns_Ret.
Qed.

Lemma Run_first_save_error (w : World) (args : InitArgs) (profile : scw.ProfilePtr)
      (err : error) (more : list (option error)) :
  scw.GetActiveProfile (loadedConfig args w) = inl profile ->
  saves w = Some err :: more ->
  Run args @ w ~>
    ((Nil, Some err), setDisk (disk w) more w,
     loadCalls w ++ [Ob (Save (firstWrite args w profile)) (Some err)]).
Proof.
  intros Hp Hs. apply Run_load. cbv zeta. rewrite Hp.
  eapply returns_call_bind; [apply save_error; exact Hs|].
  apply returns_Ret.
Qed.

Lemma Run_access_key_error (w : World) (args : InitArgs) (profile : scw.ProfilePtr)
      (err : error) :
  scw.GetActiveProfile (loadedConfig args w) = inl profile ->
  hd None (saves w) = None ->
  accessKeys w (SecretKey args) = inr err ->
  let saved := firstWrite args w profile in
  Run args @ w ~>
    ((EmptyText, Some (CliError err accessKeyDetails)),
     setDisk (Some saved) (tl (saves w)) w,
     loadCalls w ++
     [Ob (Save saved) None;
      Ob (GetAccessKey (SecretKey args)) (inr err);
      Ob GetConfigPath (configPath w);
      Ob (Printf (ConfigSaved (configPath w) saved)) tt]).
Proof.
  intros Hp Hs Ha saved. apply Run_load. cbv zeta. rewrite Hp.
  eapply returns_call_bind; [apply save_ok; exact Hs|].
  eapply returns_call_bind; [simpl; rewrite Ha; reflexivity|].
  eapply returns_call_bind; [reflexivity|].
  eapply returns_call_bind; [reflexivity|].
  apply returns_Ret.
Qed.

Lemma Run_second_save_error (w : World) (args : InitArgs) (profile : scw.ProfilePtr)
      (accessKey : string) (err : error) (more : list (option error)) :
  scw.GetActiveProfile (loadedConfig args w) = inl profile ->
  hd None (saves w) = None ->
  tl (saves w) = Some err :: more ->
  accessKeys w (SecretKey args) = inl accessKey ->
  Run args @ w ~>
    ((Nil, Some err), setDisk (Some (firstWrite args w profile)) more w,
     loadCalls w ++
     [Ob (Save (firstWrite args w profile)) None;
      Ob (GetAccessKey (SecretKey args)) (inl accessKey);
      Ob (Save (secondWrite args w profile accessKey)) (Some err)]).
Proof.
  intros Hp Hs Hs2 Ha. apply Run_load. cbv zeta. rewrite Hp.
  eapply returns_call_bind; [apply save_ok; exact Hs|].
  eapply returns_call_bind; [simpl; rewrite Ha; reflexivity|].
  eapply returns_call_bind.
  { apply (save_error (setDisk (Some (firstWrite args w profile)) (tl (saves w)) w)
             (secondWrite args w profile accessKey) (err := err) (more := more)).
    exact Hs2. }
  apply returns_Ret.
Qed.

Lemma Run_success (w : World) (args : InitArgs) (profile : scw.ProfilePtr)
      (accessKey : string) :
  scw.GetActiveProfile (loadedConfig args w) = inl profile ->
  hd None (saves w) = None ->
  hd None (tl (saves w)) = None ->
  accessKeys w (SecretKey args) = inl accessKey ->
  Run args @ w ~>
    ((SuccessResult, None),
     setDisk (Some (secondWrite args w profile accessKey)) (tl (tl (saves w))) w,
     loadCalls w ++
     [Ob (Save (firstWrite args w profile)) None;
      Ob (GetAccessKey (SecretKey args)) (inl accessKey);
      Ob (Save (secondWrite args w profile accessKey)) None]).
Proof.
  intros Hp Hs Hs2 Ha. apply Run_load. cbv zeta. rewrite Hp.
  eapply returns_call_bind; [apply save_ok; exact Hs|].
  eapply returns_call_bind; [simpl; rewrite Ha; reflexivity|].
  eapply returns_call_bind.
  { apply (save_ok (setDisk (Some (firstWrite args w profile)) (tl (saves w)) w)
             (secondWrite args w profile accessKey)).
    exact Hs2. }
  apply returns_Ret.
Qed.

Lemma loadCalls_saves (w : World) : filter isSave (loadCalls w) = [].
Proof. unfold loadCalls. destruct (disk w); reflexivity. Qed.

Lemma loadCalls_accessKey (w : World) : filter isAccessKeyCall (loadCalls w) = [].
Proof. unfold loadCalls. destruct (disk w); reflexivity. Qed.

(** X16: when the active profile, both writes and the access key go well,
    [Run] returns the success value; it writes the config with the four
    profile fields, asks for the access key of the secret key it was given,
    and writes the config again with the access key added: two writes, in
    that order, and the file holds the second. *)
Theorem X16_Run_success (w : World) (args : InitArgs) (profile : scw.ProfilePtr)
        (accessKey : string) :
  scw.GetActiveProfile (loadedConfig args w) = inl profile ->
  hd None (saves w) = None ->
  hd None (tl (saves w)) = None ->
  accessKeys w (SecretKey args) = inl accessKey ->
  let first := firstWrite args w profile in
  let second := secondWrite args w profile accessKey in
  let w' := setDisk (Some second) (tl (tl (saves w))) w in
  Run args @ w ~>
    ((SuccessResult, None), w',
     loadCalls w ++
     [Ob (Save first) None;
      Ob (GetAccessKey (SecretKey args)) (inl accessKey);
      Ob (Save second) None])
  /\ disk w' = Some second
  /\ scw.deref second profile
     = scw.setAccessKey accessKey (fillProfile args (scw.deref (loadedConfig args w) profile)).
Proof.
  intros Hp Hs Hs2 Ha first second w'.
  split; [apply Run_success; assumption|]. split; [reflexivity|].
  unfold second, secondWrite, first, firstWrite.
  assert (Hp1 : scw.GetActiveProfile
                  (scw.assign profile (fillProfile args) (loadedConfig args w))
                = inl profile).
  { revert Hp. unfold scw.GetActiveProfile. destruct profile as [|name]; simpl.
    - destruct (scw.ActiveProfile (loadedConfig args w)); [|auto].
      destruct (scw.lookup _ _); discriminate.
    - destruct (scw.ActiveProfile (loadedConfig args w)) as [n|]; [|discriminate].
      destruct (scw.lookup n (scw.Profiles (loadedConfig args w))) eqn:E; [|discriminate].
      intros H. inversion H; subst. rewrite lookup_update, E. reflexivity. }
  rewrite (deref_assign _ _ Hp1), (deref_assign _ _ Hp). reflexivity.
Qed.

(** X17: when the first write fails, [Run] returns the error of the write
    at once: the access key is not asked for, there is no second write,
    and the config file is what it was. *)
Theorem X17_Run_first_save_error (w : World) (args : InitArgs)
        (profile : scw.ProfilePtr) (err : error) (more : list (option error)) :
  scw.GetActiveProfile (loadedConfig args w) = inl profile ->
  saves w = Some err :: more ->
  let tr := loadCalls w ++ [Ob (Save (firstWrite args w profile)) (Some err)] in
  Run args @ w ~> ((Nil, Some err), setDisk (disk w) more w, tr)
  /\ filter isAccessKeyCall tr = []
  /\ length (filter isSave tr) = 1%nat.
Proof.
  intros Hp Hs tr. split; [apply Run_first_save_error; assumption|].
  unfold tr. rewrite !filter_app, loadCalls_accessKey, loadCalls_saves.
  split; reflexivity.
Qed.

(** X18: when the second write fails, [Run] returns the error of that
    write, and the file holds the config of the first write: the four
    profile fields are saved, the new access key is not. *)
Theorem X18_Run_second_save_error (w : World) (args : InitArgs)
        (profile : scw.ProfilePtr) (accessKey : string) (err : error)
        (more : list (option error)) :
  scw.GetActiveProfile (loadedConfig args w) = inl profile ->
  hd None (saves w) = None ->
  tl (saves w) = Some err :: more ->
  accessKeys w (SecretKey args) = inl accessKey ->
  let first := firstWrite args w profile in
  let w' := setDisk (Some first) more w in
  Run args @ w ~>
    ((Nil, Some err), w',
     loadCalls w ++
     [Ob (Save first) None;
      Ob (GetAccessKey (SecretKey args)) (inl accessKey);
      Ob (Save (secondWrite args w profile accessKey)) (Some err)])
  /\ disk w' = Some first
  /\ scw.AccessKey (scw.deref first profile)
     = scw.AccessKey (scw.deref (loadedConfig args w) profile).
Proof.
  intros Hp Hs Hs2 Ha first w'.
  split; [apply Run_second_save_error; assumption|]. split; [reflexivity|].
  unfold first, firstWrite. rewrite (deref_assign _ _ Hp). reflexivity.
Qed.

(** X19: when the config has no active profile to hand out, [Run] returns
    the error of [GetActiveProfile] before it writes anything or calls the
    account service; only the message about a new config may have been
    printed. *)
Theorem X19_Run_profile_error (w : World) (args : InitArgs) (err : error) :
  scw.GetActiveProfile (loadedConfig args w) = inr err ->
  Run args @ w ~> ((Nil, Some err), w, loadCalls w)
  /\ filter isSave (loadCalls w) = []
  /\ filter isAccessKeyCall (loadCalls w) = [].
Proof.
  intros Hp. split; [apply Run_profile_error; exact Hp|].
  split; [apply loadCalls_saves | apply loadCalls_accessKey].
Qed.

(** X20: when [Run] ends without an error, its value is the success value,
    the config was written twice, and the file holds the config with the
    four profile fields of the arguments and the access key that the
    account service gave for their secret key. *)
Theorem X20_Run_no_error (w w' : World) (args : InitArgs) (value : RunValue)
        (tr : trace) :
  Run args @ w ~> ((value, None), w', tr) ->
  value = SuccessResult
  /\ length (filter isSave tr) = 2%nat
  /\ exists (profile : scw.ProfilePtr) (accessKey : string),
       scw.GetActiveProfile (loadedConfig args w) = inl profile
       /\ accessKeys w (SecretKey args) = inl accessKey
       /\ disk w' = Some (secondWrite args w profile accessKey).
Proof.
  intros H.
  assert (Hno : forall (e : error) (v : RunValue) (w1 : World) (tr1 : trace),
             Run args @ w ~> ((v, Some e), w1, tr1) -> False).
  { intros e v w1 tr1 H1. pose proof (returns_unique H H1) as E.
    apply (f_equal (fun o => snd (fst (fst o)))) in E. discriminate. }
  destruct (scw.GetActiveProfile (loadedConfig args w)) as [profile | err] eqn:Hp.
  2:{ exfalso. exact (Hno _ _ _ _ (Run_profile_error w args Hp)). }
  destruct (saves w) as [|[err|] more] eqn:Hs.
  2:{ exfalso. exact (Hno _ _ _ _ (Run_first_save_error w args Hp Hs)). }
  - assert (Hs1 : hd None (saves w) = None) by (rewrite Hs; reflexivity).
    destruct (accessKeys w (SecretKey args)) as [accessKey | err] eqn:Ha.
    2:{ exfalso. exact (Hno _ _ _ _ (Run_access_key_error w args Hp Hs1 Ha)). }
    assert (Hs2 : hd None (tl (saves w)) = None) by (rewrite Hs; reflexivity).
    pose proof (returns_unique H (Run_success w args Hp Hs1 Hs2 Ha)) as E.
    inversion E; subst. split; [reflexivity|]. split.
    + rewrite filter_app, loadCalls_saves. reflexivity.
    + exists profile, accessKey. auto.
  - assert (Hs1 : hd None (saves w) = None) by (rewrite Hs; reflexivity).
    destruct (accessKeys w (SecretKey args)) as [accessKey | err] eqn:Ha.
    2:{ exfalso. exact (Hno _ _ _ _ (Run_access_key_error w args Hp Hs1 Ha)). }
    destruct more as [|[err|] more'] eqn:Hm.
    2:{ exfalso.
        assert (Hs2 : tl (saves w) = Some err :: more') by (rewrite Hs; reflexivity).
        exact (Hno _ _ _ _ (Run_second_save_error w args Hp Hs1 Hs2 Ha)). }
    + assert (Hs2 : hd None (tl (saves w)) = None) by (rewrite Hs; reflexivity).
      pose proof (returns_unique H (Run_success w args Hp Hs1 Hs2 Ha)) as E.
      inversion E; subst. split; [reflexivity|]. split.
      * rewrite filter_app, loadCalls_saves. reflexivity.
      * exists profile, accessKey. auto.
    + assert (Hs2 : hd None (tl (saves w)) = None) by (rewrite Hs; reflexivity).
      pose proof (returns_unique H (Run_success w args Hp Hs1 Hs2 Ha)) as E.
      inversion E; subst. split; [reflexivity|]. split.
      * rewrite filter_app, loadCalls_saves. reflexivity.
      * exists profile, accessKey. auto.
Qed.

(** X21: when the access key cannot be fetched, the config that stays on
    disk has the new secret key next to the access key the profile had
    before: lines 212-215 do not touch the access key, and it is only
    replaced after a successful fetch. *)
Theorem X21_stale_access_key (w : World) (args : InitArgs) (profile : scw.ProfilePtr)
        (err : error) :
  scw.GetActiveProfile (loadedConfig args w) = inl profile ->
  hd None (saves w) = None ->
  accessKeys w (SecretKey args) = inr err ->
  exists (w' : World) (tr : trace) (saved : scw.Config),
    Run args @ w ~> ((EmptyText, Some (CliError err accessKeyDetails)), w', tr)
    /\ disk w' = Some saved
    /\ scw.SecretKey (scw.deref saved profile) = Some (SecretKey args)
    /\ scw.AccessKey (scw.deref saved profile)
       = scw.AccessKey (scw.deref (loadedConfig args w) profile).
Proof.
  intros Hp Hs Ha.
  eexists. eexists. exists (firstWrite args w profile).
  split; [apply (Run_access_key_error w args Hp Hs Ha)|].
  split; [reflexivity|].
  unfold firstWrite. rewrite (deref_assign _ _ Hp). split; reflexivity.
Qed.

(** ** Run twice *)

Lemma update_update (name : string) (f g : scw.Profile -> scw.Profile)
      (ps : list (string * scw.Profile)) :
  scw.update name f (scw.update name g ps) = scw.update name (fun p => f (g p)) ps.
Proof.
  induction ps as [|[n p] ps IH]; simpl; [reflexivity|].
  destruct (n =? name) eqn:E; simpl; rewrite E; [reflexivity|].
  rewrite IH. reflexivity.
Qed.

Lemma update_ext (name : string) (f g : scw.Profile -> scw.Profile)
      (ps : list (string * scw.Profile)) :
  (forall p, f p = g p) -> scw.update name f ps = scw.update name g ps.
Proof.
  intros H. induction ps as [|[n p] ps IH]; simpl; [reflexivity|].
  rewrite H, IH. reflexivity.
Qed.

Lemma GetActiveProfile_assign (c : scw.Config) (p : scw.ProfilePtr)
      (f : scw.Profile -> scw.Profile) :
  scw.GetActiveProfile c = inl p -> scw.GetActiveProfile (scw.assign p f c) = inl p.
Proof.
  unfold scw.GetActiveProfile. destruct p as [|name]; simpl.
  - destruct (scw.ActiveProfile c); [|auto]. destruct (scw.lookup _ _); discriminate.
  - destruct (scw.ActiveProfile c) as [n|]; [|discriminate].
    destruct (scw.lookup n (scw.Profiles c)) eqn:E; [|discriminate].
    intros H. inversion H; subst. rewrite lookup_update, E. reflexivity.
Qed.

(** The config of the second write, loaded and filled again, is itself. *)
Lemma secondWrite_fixed (w : World) (args : InitArgs) (p : scw.ProfilePtr) (a : string)
      (pending : list (option error)) :
  let c := secondWrite args w p a in
  let w1 := setDisk (Some c) pending w in
  loadedConfig args w1 = c
  /\ firstWrite args w1 p = c
  /\ secondWrite args w1 p a = c.
Proof.
  intros c w1.
  assert (H1 : loadedConfig args w1 = c).
  { unfold w1, c, secondWrite, firstWrite, loadedConfig. simpl.
    destruct (SendUsage args); destruct p; reflexivity. }
  assert (H2 : firstWrite args w1 p = c).
  { unfold firstWrite. rewrite H1. unfold c, secondWrite, firstWrite.
    destruct p as [|name]; simpl; [reflexivity|].
    rewrite !update_update. reflexivity. }
  split; [exact H1|]. split; [exact H2|].
  unfold secondWrite. rewrite H2. unfold c, secondWrite, firstWrite.
  destruct p as [|name]; simpl; [reflexivity|].
  rewrite !update_update. reflexivity.
Qed.

(** X22: [Run] is idempotent on the config file.  After a run that went
    well, a second run with the same arguments and the same access key
    loads the config that was written, writes that very config at both of
    its writes and leaves the file as it found it. *)
Theorem X22_Run_twice (w : World) (args : InitArgs) (profile : scw.ProfilePtr)
        (accessKey : string) :
  scw.GetActiveProfile (loadedConfig args w) = inl profile ->
  saves w = [] ->
  accessKeys w (SecretKey args) = inl accessKey ->
  let c := secondWrite args w profile accessKey in
  let w1 := setDisk (Some c) [] w in
  (exists tr, Run args @ w ~> ((SuccessResult, None), w1, tr))
  /\ Run args @ w1 ~>
       ((SuccessResult, None), w1,
        [Ob LoadConfig (inl c);
         Ob (Save c) None;
         Ob (GetAccessKey (SecretKey args)) (inl accessKey);
         Ob (Save c) None]).
Proof.
  intros Hp Hs Ha c w1. split.
  - eexists.
    pose proof (@Run_success w args profile accessKey Hp) as H.
    rewrite Hs in H. exact (H eq_refl eq_refl Ha).
  - destruct (secondWrite_fixed w args profile accessKey []) as (H1 & H2 & H3).
    fold c in H1, H2, H3. fold w1 in H1, H2, H3.
    assert (Hp1 : scw.GetActiveProfile (loadedConfig args w1) = inl profile).
    { rewrite H1. unfold c, secondWrite, firstWrite.
      apply GetActiveProfile_assign. apply GetActiveProfile_assign. exact Hp. }
    pose proof (@Run_success w1 args profile accessKey Hp1 eq_refl eq_refl Ha) as H.
    rewrite H2, H3 in H. exact H.
Qed.

(** ** The prompt, the validator and the switch *)

(** X23: the word that the secret-key prompt highlights while the user
    types names the branch the switch takes on that line: "email" exactly
    for the lines taken as an email, "secret-key" exactly for the lines
    returned as the key, and no word exactly for the lines the switch
    would refuse. *)
Theorem X23_highlight_names_branch {sdk : SDK} (value : string) :
  (secretKeyPromptFunc value = HighlightEmail <-> classify value = ClassEmail)
  /\ (secretKeyPromptFunc value = HighlightSecretKey <-> classify value = ClassUUID)
  /\ (secretKeyPromptFunc value = NoHighlight <-> classify value = ClassInvalid).
Proof.
  unfold secretKeyPromptFunc, classify.
  destruct (IsEmail value); [|destruct (IsUUID value)];
    repeat split; intros H; try reflexivity; discriminate.
Qed.

(** ** Concrete runs of the further facts *)

Lemma X1_login_after_rounds_witness :
  IsEmail "u@example.com" = true
  /\ promptSecretKey @ twoRounds ~>
       (inl uuid, quiet,
        [Ob (Readline secretKeyReadline) (inl "u@example.com");
         Ob (PromptPassword "Enter your password") (inl "hunter2");
         Ob Hostname (inl "laptop");
         Ob (Getenv "USER") "u"]
        ++ roundCalls (firstLogin quiet "u@example.com" "hunter2")
             [(token1, "123456"); (token1, "654321")]
        ++ [Ob (Login (account.setTwoFactorToken "654321"
                         (firstLogin quiet "u@example.com" "hunter2")))
               (inl (token2, false))]).
Proof.
  split; [reflexivity|].
  exact (proj1 (@X1_login_after_rounds shapes twoRounds "u@example.com" "hunter2"
                  [(token1, "123456"); (token1, "654321")] token2 [] []
                  eq_refl eq_refl eq_refl)).
Defined.

Lemma X2_login_error_after_rounds_witness :
  logins rejected = [inl (token1, true); inl (token1, true); inr (Errorf "invalid code")]
  /\ promptSecretKey @ rejected ~>
       (inr (Errorf "invalid code"), quiet,
        [Ob (Readline secretKeyReadline) (inl "u@example.com");
         Ob (PromptPassword "Enter your password") (inl "hunter2");
         Ob Hostname (inl "laptop");
         Ob (Getenv "USER") "u"]
        ++ roundCalls (firstLogin quiet "u@example.com" "hunter2")
             [(token1, "123456"); (token1, "654321")]
        ++ [Ob (Login (account.setTwoFactorToken "654321"
                         (firstLogin quiet "u@example.com" "hunter2")))
               (inr (Errorf "invalid code"))]).
Proof.
  split; [reflexivity|].
  exact (proj1 (@X2_login_error_after_rounds shapes rejected "u@example.com" "hunter2"
                  [(token1, "123456"); (token1, "654321")] (Errorf "invalid code") [] []
                  eq_refl eq_refl eq_refl)).
Defined.

Lemma X3_code_prompt_error_witness :
  lines noCode = [inl "u@example.com"; inl "hunter2"; inr EOF]
  /\ promptSecretKey @ noCode ~>
       (inr EOF, quiet,
        [Ob (Readline secretKeyReadline) (inl "u@example.com");
         Ob (PromptPassword "Enter your password") (inl "hunter2");
         Ob Hostname (inl "laptop");
         Ob (Getenv "USER") "u";
         Ob (Login (firstLogin quiet "u@example.com" "hunter2")) (inl (token1, true));
         Ob (PromptString "Enter your 2FA code") (inr EOF)]).
Proof.
  split; [reflexivity|].
  exact (proj1 (@X3_code_prompt_error shapes noCode "u@example.com" "hunter2" []
                  token1 EOF [] [] eq_refl eq_refl eq_refl)).
Defined.

Lemma X4_key_origin_witness :
  promptSecretKey @ twoFactorWorld ~> (inl uuid, quiet, twoFactorCalls)
  /\ ((twoFactorCalls = [Ob (Readline secretKeyReadline) (inl uuid)]
       /\ classify uuid = ClassUUID)
      \/ (exists (front : trace) (req : account.LoginRequest) (t : account.Token),
            twoFactorCalls = front ++ [Ob (Login req) (inl (t, false))]
            /\ uuid = account.SecretKey t
            /\ hd_error twoFactorCalls
               = Some (Ob (Readline secretKeyReadline) (inl (account.Email req))))).
Proof.
  assert (H : promptSecretKey @ twoFactorWorld ~> (inl uuid, quiet, twoFactorCalls)).
  { exists 20%nat. reflexivity. }
  split; [exact H|].
  exact (@X4_key_origin shapes World scripted twoFactorWorld quiet uuid twoFactorCalls H).
Defined.

Lemma X5_password_prompt_error_witness :
  IsEmail "u@example.com" = true
  /\ promptSecretKey @ setLines [inl "u@example.com"; inr EOF] quiet ~>
       (inr EOF, quiet,
        [Ob (Readline secretKeyReadline) (inl "u@example.com");
         Ob (PromptPassword "Enter your password") (inr EOF)]).
Proof.
  split; [reflexivity|].
  exact (proj1 (@X5_password_prompt_error shapes
                  (setLines [inl "u@example.com"; inr EOF] quiet) "u@example.com" EOF []
                  eq_refl eq_refl)).
Defined.

Lemma X6_readline_error_witness :
  lines closed = [inr EOF]
  /\ promptSecretKey @ closed ~>
       (inr EOF, quiet, [Ob (Readline secretKeyReadline) (inr EOF)]).
Proof.
  split; [reflexivity|].
  exact (@X6_readline_error shapes closed EOF [] eq_refl).
Defined.

Lemma X7_hostname_error_ignored_witness :
  hostname nameless = inr (Errorf "no hostname")
  /\ promptSecretKey @ nameless ~>
       (inl uuid, setLogins [] (setLines [] nameless),
        [Ob (Readline secretKeyReadline) (inl "u@example.com");
         Ob (PromptPassword "Enter your password") (inl "hunter2");
         Ob Hostname (inr (Errorf "no hostname"));
         Ob (Getenv "USER") "u";
         Ob (Login {| account.Email := "u@example.com"; account.Password := "hunter2";
                      account.Description := "scw-cli u@";
                      account.TwoFactorToken := "" |})
            (inl (token2, false))]).
Proof.
  split; [reflexivity|].
  exact (@X7_hostname_error_ignored shapes nameless "u@example.com" "hunter2"
           (Errorf "no hostname") token2 [] [] eq_refl eq_refl eq_refl eq_refl).
Defined.

Lemma X9_PreValidateFunc_keeps_file_witness :
  PreValidateFunc noArgs @ configured ~>
    ((noArgs, Some (Errorf "initialization cancelled")), setConfirms [] configured,
     declinedCalls)
  /\ disk (setConfirms [] configured) = disk configured
  /\ saves (setConfirms [] configured) = saves configured.
Proof.
  assert (H : PreValidateFunc noArgs @ configured ~>
                ((noArgs, Some (Errorf "initialization cancelled")),
                 setConfirms [] configured, declinedCalls)).
  { exists 20%nat. reflexivity. }
  split; [exact H|].
  exact (@X9_PreValidateFunc_keeps_file shapes noArgs configured
           (setConfirms [] configured) _ declinedCalls H).
Defined.

Lemma X11_first_error_wins_witness :
  tl blocks = [] ++ confirmOverride
                 :: [askSecretKey; askZone; deduceRegion; askOrganizationID; askSendUsage]
  /\ PreValidateFunc noArgs @ configured ~>
       ((noArgs, Some (Errorf "initialization cancelled")), setConfirms [] configured,
        [Ob GetWidth 120%Z; Ob (Printf Logo) tt]
        ++ [Ob LoadConfig (inl existing);
            Ob GetConfigPath "/home/u/.config/scw/config.yaml";
            Ob (Printf (CurrentConfig "/home/u/.config/scw/config.yaml" existing)) tt;
            Ob (PromptBoolWithConfig overridePrompt) (inl false)]).
Proof.
  split; [reflexivity|].
  refine (@X11_first_error_wins shapes []
            [askSecretKey; askZone; deduceRegion; askOrganizationID; askSendUsage]
            confirmOverride noArgs noArgs noArgs configured configured
            (setConfirms [] configured) (Errorf "initialization cancelled")
            [Ob GetWidth 120%Z; Ob (Printf Logo) tt] _ eq_refl _ _).
  - exists 10%nat. reflexivity.
  - exists 10%nat. reflexivity.
Defined.

Lemma X12_given_arguments_bypass_witness :
  disk quiet = None
  /\ PreValidateFunc resolved @ quiet ~> ((resolved, None), quiet, opening).
Proof.
  split; [reflexivity|].
  refine (proj1 (@X12_given_arguments_bypass shapes quiet resolved true
                   eq_refl _ _ _ _ eq_refl)); discriminate.
Defined.

(** The user agrees to override the file and answers every prompt behind
    the confirmation. *)
Lemma X13_override_accepted_witness :
  disk overridingInteractive = Some existing
  /\ confirms overridingInteractive = [inl true; inl true]
  /\ PreValidateFunc noArgs @ overridingInteractive ~>
       ((resolved, None), setConfirms [] (setLines [] overridingInteractive),
        [Ob GetWidth 120%Z;
         Ob (Printf Logo) tt;
         Ob LoadConfig (inl existing);
         Ob GetConfigPath "/home/u/.config/scw/config.yaml";
         Ob (Printf (CurrentConfig "/home/u/.config/scw/config.yaml" existing)) tt;
         Ob (PromptBoolWithConfig overridePrompt) (inl true)]
        ++ [Ob (Readline secretKeyReadline) (inl uuid);
            Ob (PromptStringWithConfig zonePrompt) (inl "fr-par-1");
            Ob (GetOrganizationsIds uuid) (inl [organization1]);
            Ob (Printf BlankLine) tt;
            Ob (Printf UsageNotice) tt;
            Ob (PromptBoolWithConfig sendUsagePrompt) (inl true)])
  /\ disk (setConfirms [] (setLines [] overridingInteractive)) = Some existing.
Proof.
  split; [reflexivity|]. split; [reflexivity|].
  refine (@X13_override_accepted shapes overridingInteractive
            (setConfirms [] (setLines [] overridingInteractive)) noArgs existing
            [inl true] (resolved, None)
            [Ob (Readline secretKeyReadline) (inl uuid);
             Ob (PromptStringWithConfig zonePrompt) (inl "fr-par-1");
             Ob (GetOrganizationsIds uuid) (inl [organization1]);
             Ob (Printf BlankLine) tt;
             Ob (Printf UsageNotice) tt;
             Ob (PromptBoolWithConfig sendUsagePrompt) (inl true)]
            eq_refl eq_refl _).
  exists 30%nat. reflexivity.
Defined.

Lemma X14_interactive_resolution_witness :
  lines interactive = [inl uuid; inl ""]
  /\ organizations interactive uuid = inl [organization1]
  /\ PreValidateFunc noArgs @ interactive ~>
       ((resolved, None), setConfirms [] (setLines [] interactive),
        opening
        ++ [Ob (Readline secretKeyReadline) (inl uuid);
            Ob (PromptStringWithConfig zonePrompt) (inl "fr-par-1");
            Ob (GetOrganizationsIds uuid) (inl [organization1]);
            Ob (Printf BlankLine) tt;
            Ob (Printf UsageNotice) tt;
            Ob (PromptBoolWithConfig sendUsagePrompt) (inl true)]).
Proof.
  split; [reflexivity|]. split; [reflexivity|].
  exact (@X14_interactive_resolution shapes interactive uuid organization1 "fr-par-1"
           "fr-par" true [] [] eq_refl eq_refl eq_refl eq_refl eq_refl eq_refl
           eq_refl eq_refl eq_refl).
Defined.

Lemma X15_organization_prompt_error_witness :
  organizations refusedClosed uuid = inr (Errorf "unauthorized")
  /\ lines refusedClosed = [inr EOF]
  /\ getOrganizationID uuid @ refusedClosed ~>
       (inr EOF, setLines [] refusedClosed,
        [Ob (GetOrganizationsIds uuid) (inr (Errorf "unauthorized"));
         Ob (Warningf (Errorf "unauthorized")) tt;
         Ob (PromptStringWithConfig (organizationIDPrompt [])) (inr EOF)]).
Proof.
  split; [reflexivity|]. split; [reflexivity|].
  refine (@X15_organization_prompt_error shapes refusedClosed uuid
            (inr (Errorf "unauthorized")) EOF [] eq_refl _ eq_refl).
  intros ID H. discriminate.
Defined.

Lemma X16_Run_success_witness :
  accessKeys granting uuid = inl "SCWXXXXXXXXXXXXXXXXX"
  /\ Run resolved @ granting ~>
       ((SuccessResult, None), setDisk (Some withAccessKey) [] granting,
        [Ob LoadConfig (inr (Errorf "config file not found"));
         Ob GetConfigPath "/home/u/.config/scw/config.yaml";
         Ob (Printf (CreatingNewConfig "/home/u/.config/scw/config.yaml")) tt;
         Ob (Save firstSaved) None;
         Ob (GetAccessKey uuid) (inl "SCWXXXXXXXXXXXXXXXXX");
         Ob (Save withAccessKey) None]).
Proof.
  split; [reflexivity|].
  exact (proj1 (@X16_Run_success granting resolved scw.Inline "SCWXXXXXXXXXXXXXXXXX"
                  eq_refl eq_refl eq_refl eq_refl)).
Defined.

Lemma X17_Run_first_save_error_witness :
  saves firstWriteFails = [Some (Errorf "disk full")]
  /\ Run resolved @ firstWriteFails ~>
       ((Nil, Some (Errorf "disk full")), granting,
        [Ob LoadConfig (inr (Errorf "config file not found"));
         Ob GetConfigPath "/home/u/.config/scw/config.yaml";
         Ob (Printf (CreatingNewConfig "/home/u/.config/scw/config.yaml")) tt;
         Ob (Save firstSaved) (Some (Errorf "disk full"))]).
Proof.
  split; [reflexivity|].
  exact (proj1 (@X17_Run_first_save_error firstWriteFails resolved scw.Inline
                  (Errorf "disk full") [] eq_refl eq_refl)).
Defined.

Lemma X18_Run_second_save_error_witness :
  saves secondWriteFails = [None; Some (Errorf "disk full")]
  /\ Run resolved @ secondWriteFails ~>
       ((Nil, Some (Errorf "disk full")), setDisk (Some firstSaved) [] granting,
        [Ob LoadConfig (inr (Errorf "config file not found"));
         Ob GetConfigPath "/home/u/.config/scw/config.yaml";
         Ob (Printf (CreatingNewConfig "/home/u/.config/scw/config.yaml")) tt;
         Ob (Save firstSaved) None;
         Ob (GetAccessKey uuid) (inl "SCWXXXXXXXXXXXXXXXXX");
         Ob (Save withAccessKey) (Some (Errorf "disk full"))]).
Proof.
  split; [reflexivity|].
  exact (proj1 (@X18_Run_second_save_error secondWriteFails resolved scw.Inline
                  "SCWXXXXXXXXXXXXXXXXX" (Errorf "disk full") []
                  eq_refl eq_refl eq_refl eq_refl)).
Defined.

Lemma X19_Run_profile_error_witness :
  scw.GetActiveProfile (loadedConfig resolved danglingWorld)
  = inr (Errorf "given profile work does not exist")
  /\ Run resolved @ danglingWorld ~>
       ((Nil, Some (Errorf "given profile work does not exist")), danglingWorld,
        [Ob LoadConfig (inl dangling)]).
Proof.
  split; [reflexivity|].
  exact (proj1 (@X19_Run_profile_error danglingWorld resolved
                  (Errorf "given profile work does not exist") eq_refl)).
Defined.

Lemma X20_Run_no_error_witness :
  Run resolved @ granting ~>
    ((SuccessResult, None), setDisk (Some withAccessKey) [] granting, successCalls)
  /\ length (filter isSave successCalls) = 2%nat.
Proof.
  assert (H : Run resolved @ granting ~>
                ((SuccessResult, None), setDisk (Some withAccessKey) [] granting,
                 successCalls)).
  { exists 20%nat. reflexivity. }
  split; [exact H|].
  exact (proj1 (proj2 (@X20_Run_no_error granting _ resolved SuccessResult _ H))).
Defined.

Lemma X21_stale_access_key_witness :
  accessKeys earlierWorld uuid = inr (Errorf "denied")
  /\ scw.AccessKey (scw.deref (loadedConfig resolved earlierWorld) scw.Inline)
     = Some "SCWOLDOLDOLDOLDOLDOL"
  /\ exists (w' : World) (tr : trace) (saved : scw.Config),
       Run resolved @ earlierWorld ~>
         ((EmptyText, Some (CliError (Errorf "denied") accessKeyDetails)), w', tr)
       /\ disk w' = Some saved
       /\ scw.SecretKey (scw.deref saved scw.Inline) = Some uuid
       /\ scw.AccessKey (scw.deref saved scw.Inline) = Some "SCWOLDOLDOLDOLDOLDOL".
Proof.
  split; [reflexivity|]. split; [reflexivity|].
  exact (@X21_stale_access_key earlierWorld resolved scw.Inline (Errorf "denied")
           eq_refl eq_refl eq_refl).
Defined.

Lemma X22_Run_twice_witness :
  saves granting = []
  /\ Run resolved @ setDisk (Some withAccessKey) [] granting ~>
       ((SuccessResult, None), setDisk (Some withAccessKey) [] granting,
        [Ob LoadConfig (inl withAccessKey);
         Ob (Save withAccessKey) None;
         Ob (GetAccessKey uuid) (inl "SCWXXXXXXXXXXXXXXXXX");
         Ob (Save withAccessKey) None]).
Proof.
  split; [reflexivity|].
  exact (proj2 (@X22_Run_twice granting resolved scw.Inline "SCWXXXXXXXXXXXXXXXXX"
                  eq_refl eq_refl eq_refl)).
Defined.
